(** * AuthManager: a shallow embedding of the auth SDK

    The repository ships one class, [AuthManager], in two variants:
    - the configurable build (cookies, expiry, URL and postMessage
      hand-off), embedded at top level below;
    - the minimal source [src/index.ts], embedded in [Module Minimal].

    Conventions of the embedding.
    - A method [m(args)] that reads the clock takes the value of
      [Date.now()] as an explicit argument [now : Z] (milliseconds).
    - The object and the browser environment it touches are one record,
      [State]; a method is a function from [State] to [State], paired with
      its return value, and with [Result] when the method can throw.
    - JavaScript built-ins (JSON, URL, percent-encoding, number
      formatting) are the fields of a [Runtime]; [browser] further down is
      an executable instance.
    - A subscriber is a reference ([Listener]); what its body does to the
      subscription list when it is called is given by [callback]. A body
      returns normally and touches the manager through [subscribe] and
      the handles of [subscribe] only.
    - Storage and cookie writes succeed; the clock does not advance
      inside one method call. *)

From Stdlib Require Import Ascii DecimalString DecimalPos.
From stdpp Require Import base numbers list strings gmap.

Open Scope string_scope.
Open Scope Z_scope.
Open Scope stdpp_scope.
Open Scope list_scope.

(** ** Data *)

(** [interface User]. *)
Record User := mkUser {
  id : string;
  name : string;
  email : string;
  role : option string;
}.

(** ['strict' | 'lax' | 'none']. *)
Inductive SameSite := strict | lax | none.

(** [interface AuthConfig]: the constructor's argument, every field
    optional. *)
Record AuthConfig := mkAuthConfig {
  domain_opt : option string;
  secure_opt : option bool;
  sameSite_opt : option SameSite;
  crossOriginEnabled_opt : option bool;
  tokenExpiry_opt : option Z;
}.

(** [this.config]: the resolved configuration. *)
Record Config := mkConfig {
  domain : string;
  secure : bool;
  sameSite : SameSite;
  crossOriginEnabled : bool;
  tokenExpiry : Z;
}.

(** A subscriber is compared with [!==], so it is a reference. *)
Definition Listener := nat.

(** What a subscriber's body may do to the manager while it runs: call
    [subscribe] or call the handle that [subscribe] returned for some
    callback. *)
Inductive CbAction :=
  | CbSubscribe (l : Listener)
  | CbUnsubscribe (l : Listener).

(** Values that can be thrown. *)
Inductive Exn :=
  | Error (msg : string)
  | SyntaxError
  | URIError
  | TypeError.

Inductive Result (A : Type) :=
  | Ok (a : A)
  | Throw (e : Exn).
Arguments Ok {A} a.
Arguments Throw {A} e.

(** [URL]: everything before the query, the [searchParams] list and the
    fragment. *)
Record URL := mkURL {
  url_base : string;
  searchParams : list (string * string);
  url_hash : string;
}.

(** The two broadcast kinds of [broadcast(type, user)]. *)
Inductive Kind := KLogin | KLogout.

(** Payload of a window [message] event. *)
Inductive MessageData :=
  | AUTH_SHARE (token : string) (u : option User) (timestamp : Z)
  | AUTH_LOGIN (u : option User)
  | AUTH_LOGOUT
  | OtherMessage (type : string).

(** Payload of a [BroadcastChannel] message. *)
Inductive ChannelData :=
  | ChLogin (u : option User)
  | ChLogout
  | ChOther (type : string).

(** A [storage] event. *)
Record StorageEvent := mkStorageEvent {
  key : option string;
  oldValue : option string;
  newValue : option string;
}.

(** Everything the manager sends out. *)
Inductive Outbound :=
  | WindowPost (k : Kind) (u : option User)
      (* window.postMessage({type: `AUTH_...`, user}, '*') *)
  | ChannelPost (k : Kind) (u : option User)
      (* channel.postMessage({type, user}) on 'auth:channel' *)
  | TargetPost (targetWindow : nat) (targetOrigin : string)
      (token : string) (u : User) (timestamp : Z).
      (* targetWindow.postMessage({type: 'AUTH_SHARE', auth}, targetOrigin) *)

(** One assignment to [document.cookie], field by field of the template
    string of [setCookie]. *)
Record CookieLine := mkCookieLine {
  ck_name : string;
  ck_value : string;
  ck_maxAge : Z;
  ck_domain : string;
  ck_secure : bool;
  ck_sameSite : SameSite;
}.

(** The JavaScript built-ins the class calls. *)
Record Runtime := mkRuntime {
  (* JSON.stringify on a [User | null] *)
  JSON_stringify : option User -> string;
  (* JSON.parse: [None] throws SyntaxError, [Some None] is [null] *)
  JSON_parse : string -> option (option User);
  encodeURIComponent : string -> string;
  (* decodeURIComponent: [None] throws URIError *)
  decodeURIComponent : string -> option string;
  (* new URL(s): [None] throws TypeError *)
  URL_parse : string -> option URL;
  URL_toString : URL -> string;
  (* Number.prototype.toString on an integer *)
  Number_toString : Z -> string;
  (* parseInt: [None] is NaN *)
  parseInt : string -> option Z;
}.

(** The object's fields and the browser state it reads and writes. *)
Record State := mkState {
  (* this.* *)
  user : option User;
  listeners : list Listener;
  tokenExpiryTime : option Z;        (* [None]: null or NaN, both falsy *)
  config : Config;
  (* window.* *)
  localStorage : gmap string string;
  sessionStorage : gmap string string;
  cookieJar : list (string * string);  (* name, stored value *)
  href : string;                       (* window.location.href *)
  broadcastChannelSupported : bool;
  (* effects *)
  outbox : list Outbound;              (* messages posted, oldest first *)
  calls : list (Listener * option User); (* subscriber invocations, oldest first *)
  console : list string;               (* console.warn / console.error *)
}.

(** The part of the browser that exists before the object does. *)
Record Browser := mkBrowser {
  b_hostname : string;                 (* window.location.hostname *)
  b_https : bool;                      (* window.location.protocol === 'https:' *)
  b_localStorage : gmap string string;
  b_sessionStorage : gmap string string;
  b_cookieJar : list (string * string);
  b_href : string;
  b_broadcastChannelSupported : bool;
}.

(** ** Field updates *)

Definition set_user (v : option User) (s : State) : State :=
  mkState v (listeners s) (tokenExpiryTime s) (config s) (localStorage s)
    (sessionStorage s) (cookieJar s) (href s) (broadcastChannelSupported s)
    (outbox s) (calls s) (console s).
Definition set_listeners (v : list Listener) (s : State) : State :=
  mkState (user s) v (tokenExpiryTime s) (config s) (localStorage s)
    (sessionStorage s) (cookieJar s) (href s) (broadcastChannelSupported s)
    (outbox s) (calls s) (console s).
Definition set_tokenExpiryTime (v : option Z) (s : State) : State :=
  mkState (user s) (listeners s) v (config s) (localStorage s)
    (sessionStorage s) (cookieJar s) (href s) (broadcastChannelSupported s)
    (outbox s) (calls s) (console s).
Definition set_localStorage (v : gmap string string) (s : State) : State :=
  mkState (user s) (listeners s) (tokenExpiryTime s) (config s) v
    (sessionStorage s) (cookieJar s) (href s) (broadcastChannelSupported s)
    (outbox s) (calls s) (console s).
Definition set_sessionStorage (v : gmap string string) (s : State) : State :=
  mkState (user s) (listeners s) (tokenExpiryTime s) (config s) (localStorage s)
    v (cookieJar s) (href s) (broadcastChannelSupported s)
    (outbox s) (calls s) (console s).
Definition set_cookieJar (v : list (string * string)) (s : State) : State :=
  mkState (user s) (listeners s) (tokenExpiryTime s) (config s) (localStorage s)
    (sessionStorage s) v (href s) (broadcastChannelSupported s)
    (outbox s) (calls s) (console s).
Definition set_href (v : string) (s : State) : State :=
  mkState (user s) (listeners s) (tokenExpiryTime s) (config s) (localStorage s)
    (sessionStorage s) (cookieJar s) v (broadcastChannelSupported s)
    (outbox s) (calls s) (console s).
Definition set_outbox (v : list Outbound) (s : State) : State :=
  mkState (user s) (listeners s) (tokenExpiryTime s) (config s) (localStorage s)
    (sessionStorage s) (cookieJar s) (href s) (broadcastChannelSupported s)
    v (calls s) (console s).
Definition set_calls (v : list (Listener * option User)) (s : State) : State :=
  mkState (user s) (listeners s) (tokenExpiryTime s) (config s) (localStorage s)
    (sessionStorage s) (cookieJar s) (href s) (broadcastChannelSupported s)
    (outbox s) v (console s).
Definition set_console (v : list string) (s : State) : State :=
  mkState (user s) (listeners s) (tokenExpiryTime s) (config s) (localStorage s)
    (sessionStorage s) (cookieJar s) (href s) (broadcastChannelSupported s)
    (outbox s) (calls s) v.

(** ** JavaScript idioms *)

(** Truthiness of a [string | null]: [null] and [''] are falsy. *)
Definition truthy (o : option string) : bool :=
  match o with
  | Some s => negb (String.eqb s "")
  | None => false
  end.

(** [a || b]. *)
Definition or_else (a b : option string) : option string :=
  if truthy a then a else b.

(** Truthiness of a [number | null]: [null], [NaN] and [0] are falsy. *)
Definition truthy_num (o : option Z) : bool :=
  match o with
  | Some z => negb (Z.eqb z 0)
  | None => false
  end.

(** [String.prototype.split(sep)] for a non-empty separator: [skip]
    counts the characters of a separator still to be dropped, [cur] is
    the piece being collected. *)
Fixpoint split_go (sep s : string) (skip : nat) (cur : string) : list string :=
  match s with
  | EmptyString => [cur]
  | String c s' =>
      match skip with
      | S k => split_go sep s' k cur
      | O =>
          if String.prefix sep s
          then cur :: split_go sep s' (String.length sep - 1) ""
          else split_go sep s' 0 (cur +:+ String c "")
      end
  end.

Definition split (s sep : string) : list string := split_go sep s 0 "".

(** ** URLSearchParams *)

Definition sp_get (k : string) (ps : list (string * string)) : option string :=
  snd <$> List.find (fun p => String.eqb (fst p) k) ps.

Definition sp_delete (k : string) (ps : list (string * string))
  : list (string * string) :=
  List.filter (fun p => negb (String.eqb (fst p) k)) ps.

(** [set]: the first pair named [k] takes the value and the later ones
    are removed; without one, the pair is appended. *)
Fixpoint sp_set (k v : string) (ps : list (string * string))
  : list (string * string) :=
  match ps with
  | [] => [(k, v)]
  | p :: ps' =>
      if String.eqb (fst p) k then (k, v) :: sp_delete k ps'
      else p :: sp_set k v ps'
  end.

(** ** Storage *)

Definition getItem (k : string) (m : gmap string string) : option string :=
  m !! k.
Definition setItem (k v : string) (m : gmap string string) : gmap string string :=
  <[k := v]> m.
Definition removeItem (k : string) (m : gmap string string) : gmap string string :=
  delete k m.

(** ** Cookies *)

(** The [document.cookie] getter: [name=value] pairs joined by ["; "]. *)
Definition document_cookie (jar : list (string * string)) : string :=
  String.concat "; " (List.map (fun p => fst p +:+ "=" +:+ snd p) jar).

Definition jar_remove (n : string) (jar : list (string * string))
  : list (string * string) :=
  List.filter (fun p => negb (String.eqb (fst p) n)) jar.

Fixpoint jar_put (n v : string) (jar : list (string * string))
  : list (string * string) :=
  match jar with
  | [] => [(n, v)]
  | p :: jar' =>
      if String.eqb (fst p) n then (n, v) :: jar' else p :: jar_put n v jar'
  end.

(** The [document.cookie] setter: a cookie whose max-age is not positive
    is dropped from the jar, any other replaces the one of its name. *)
Definition document_cookie_assign (c : CookieLine) (jar : list (string * string))
  : list (string * string) :=
  if Z.leb (ck_maxAge c) 0 then jar_remove (ck_name c) jar
  else jar_put (ck_name c) (ck_value c) jar.

(** ** The class *)

Section AuthManager.

Context (rt : Runtime).
(** [callback l u]: what the body of subscriber [l] does when it is
    called with [u]. *)
Context (callback : Listener -> option User -> list CbAction).

(** *** Cookies *)

Definition setCookie (n value : string) (maxAge : Z) (s : State) : State :=
  let cookie :=
    mkCookieLine n (encodeURIComponent rt value) maxAge
      (domain (config s)) (secure (config s)) (sameSite (config s)) in
  set_cookieJar (document_cookie_assign cookie (cookieJar s)) s.

Definition getCookie (n : string) (s : State) : Result (option string) :=
  let value := "; " +:+ document_cookie (cookieJar s) in
  let parts := split value ("; " +:+ n +:+ "=") in
  if Nat.eqb (length parts) 2 then
    (* parts.pop()?.split(';').shift() || '' *)
    let piece := last parts ≫= fun p => head (split p ";") in
    match decodeURIComponent rt (default "" (or_else piece (Some ""))) with
    | Some v => Ok (Some v)
    | None => Throw URIError
    end
  else Ok None.

Definition deleteCookie (n : string) (s : State) : State :=
  setCookie n "" (-1) s.

(** *** Subscribers *)

(** The closure [subscribe(listener)] returns. *)
Definition unsubscribe (listener : Listener) (s : State) : State :=
  set_listeners (filter (fun l => l ≠ listener) (listeners s)) s.

Definition subscribe (listener : Listener) (s : State)
  : State * (State -> State) :=
  (set_listeners (listeners s ++ [listener]) s, unsubscribe listener).

(** One action of a subscriber's body. [arr] is the array that the
    running [forEach] traverses and [aliased] tells whether
    [this.listeners] is still that same array: [push] changes the array
    the field refers to, [filter] builds a new array and the assignment
    makes the field refer to it. *)
Definition run_action (a : CbAction) (it : list Listener * bool * State)
  : list Listener * bool * State :=
  let '(arr, aliased, s) := it in
  match a with
  | CbSubscribe l =>
      (if aliased then arr ++ [l] else arr, aliased, fst (subscribe l s))
  | CbUnsubscribe l =>
      (arr, false, unsubscribe l s)
  end.

Definition run_body (body : list CbAction) (it : list Listener * bool * State)
  : list Listener * bool * State :=
  foldl (fun it a => run_action a it) it body.

(** [arr.forEach(listener => listener(this.user))]: the number of
    indices to visit is fixed on entry ([n] are left, [k] is next);
    the element is read from the array when its index is reached. *)
Fixpoint forEach_listener (n k : nat) (arr : list Listener) (aliased : bool)
    (s : State) : State :=
  match n with
  | O => s
  | S n' =>
      match arr !! k with
      | None => forEach_listener n' (S k) arr aliased s
      | Some l =>
          let s1 := set_calls (calls s ++ [(l, user s)]) s in
          let '(arr', aliased', s2) :=
            run_body (callback l (user s)) (arr, aliased, s1) in
          forEach_listener n' (S k) arr' aliased' s2
      end
  end.

Definition notify (s : State) : State :=
  forEach_listener (length (listeners s)) 0 (listeners s) true s.

(** *** Outbound notifications *)

Definition broadcast (type : Kind) (u : option User) (s : State) : State :=
  let s := set_outbox (outbox s ++ [WindowPost type u]) s in
  if broadcastChannelSupported s
  then set_outbox (outbox s ++ [ChannelPost type u]) s
  else set_console (console s ++ ["BroadcastChannel not supported"]) s.

(** *** Session *)

(** [login(user, token)]. The declared type of [user] is [User]; the
    callers inside the class also pass what [JSON.parse] or a message
    gave them, which can be [null]. [tokenExpiry || 0] on a number is
    the number. *)
Definition login (u : option User) (token : string) (now : Z) (s : State)
  : State :=
  let s := set_user u s in
  let expiry := now + tokenExpiry (config s) in
  let s := set_tokenExpiryTime (Some expiry) s in
  let s := set_localStorage (setItem "auth:token" token (localStorage s)) s in
  let s := set_localStorage
             (setItem "auth:user" (JSON_stringify rt u) (localStorage s)) s in
  let s := set_localStorage
             (setItem "auth:expiry" (Number_toString rt expiry) (localStorage s)) s in
  let s := setCookie "auth_token" token (tokenExpiry (config s)) s in
  let s := setCookie "auth_user" (JSON_stringify rt u) (tokenExpiry (config s)) s in
  let s := notify s in
  let s := broadcast KLogin u s in
  let s := set_sessionStorage (setItem "auth:token" token (sessionStorage s)) s in
  set_sessionStorage
    (setItem "auth:user" (JSON_stringify rt u) (sessionStorage s)) s.

Definition logout (s : State) : State :=
  let s := set_user None s in
  let s := set_tokenExpiryTime None s in
  let s := set_localStorage (removeItem "auth:token" (localStorage s)) s in
  let s := set_localStorage (removeItem "auth:user" (localStorage s)) s in
  let s := set_localStorage (removeItem "auth:expiry" (localStorage s)) s in
  let s := set_sessionStorage (removeItem "auth:token" (sessionStorage s)) s in
  let s := set_sessionStorage (removeItem "auth:user" (sessionStorage s)) s in
  let s := deleteCookie "auth_token" s in
  let s := deleteCookie "auth_user" s in
  let s := notify s in
  broadcast KLogout None s.

(** [this.tokenExpiryTime && Date.now() > this.tokenExpiryTime]. *)
Definition expired (now : Z) (s : State) : bool :=
  truthy_num (tokenExpiryTime s) && (default 0 (tokenExpiryTime s) <? now)%Z.

Definition isLoggedIn (now : Z) (s : State) : State * bool :=
  match user s with
  | None => (s, false)
  | Some _ => if expired now s then (logout s, false) else (s, true)
  end.

Definition getUser (s : State) : option User := user s.

Definition getToken (s : State) : option string :=
  or_else (getItem "auth:token" (localStorage s))
          (getItem "auth:token" (sessionStorage s)).

(** *** Hand-off *)

Definition generateAuthUrl (targetUrl : string) (now : Z) (s : State)
  : State * Result string :=
  let '(s, logged) := isLoggedIn now s in
  if negb logged
  then (s, Throw (Error "User must be logged in to generate auth URL"))
  else
    let token := getToken s in
    match getUser s with
    | Some u =>
        if truthy token then
          match URL_parse rt targetUrl with
          | None => (s, Throw TypeError)
          | Some url =>
              let ps := sp_set "auth_token" (default "" token) (searchParams url) in
              let ps := sp_set "auth_user" (JSON_stringify rt (Some u)) ps in
              let ps := sp_set "auth_timestamp" (Number_toString rt now) ps in
              (s, Ok (URL_toString rt (mkURL (url_base url) ps (url_hash url))))
          end
        else (s, Throw (Error "Invalid auth state"))
    | None => (s, Throw (Error "Invalid auth state"))
    end.

(** [Date.now() - authTime < 5 * 60 * 1000]; a comparison with NaN is
    false. *)
Definition fresh (now : Z) (authTime : option Z) : bool :=
  match authTime with
  | Some t => (now - t <? 5 * 60 * 1000)%Z
  | None => false
  end.

Definition processAuthFromUrl (now : Z) (s : State) : State * bool :=
  (* new URLSearchParams(window.location.search) *)
  let urlParams :=
    match URL_parse rt (href s) with
    | Some l => searchParams l
    | None => []
    end in
  let token := sp_get "auth_token" urlParams in
  let userStr := sp_get "auth_user" urlParams in
  let timestamp := sp_get "auth_timestamp" urlParams in
  if truthy token && truthy userStr && truthy timestamp then
    match JSON_parse rt (default "" userStr) with
    | None =>
        (set_console (console s ++ ["Failed to process auth from URL:"]) s,
         false)
    | Some u =>
        let authTime := parseInt rt (default "" timestamp) in
        if fresh now authTime then
          let s := login u (default "" token) now s in
          match URL_parse rt (href s) with
          | None =>
              (set_console (console s ++ ["Failed to process auth from URL:"]) s,
               false)
          | Some url =>
              let ps := sp_delete "auth_token" (searchParams url) in
              let ps := sp_delete "auth_user" ps in
              let ps := sp_delete "auth_timestamp" ps in
              (* window.history.replaceState({}, '', url.toString()) *)
              (set_href (URL_toString rt (mkURL (url_base url) ps (url_hash url))) s,
               true)
          end
        else (s, false)
    end
  else (s, false).

Definition shareAuthWithApp (targetOrigin : string) (targetWindow : nat)
    (now : Z) (s : State) : State * Result unit :=
  let '(s, logged) := isLoggedIn now s in
  if negb logged
  then (s, Throw (Error "User must be logged in to share auth"))
  else
    let token := getToken s in
    match getUser s with
    | Some u =>
        if truthy token then
          (set_outbox
             (outbox s ++
                [TargetPost targetWindow targetOrigin (default "" token) u now]) s,
           Ok tt)
        else (s, Throw (Error "Invalid auth state"))
    | None => (s, Throw (Error "Invalid auth state"))
    end.

(** *** Restoration and construction *)

Definition restoreSession (s : State) : Result State :=
  match getCookie "auth_token" s with
  | Throw e => Throw e
  | Ok cookieToken =>
      match getCookie "auth_user" s with
      | Throw e => Throw e
      | Ok cookieUser =>
          let localToken := getItem "auth:token" (localStorage s) in
          let localUser := getItem "auth:user" (localStorage s) in
          let token := or_else cookieToken localToken in
          let userStr := or_else cookieUser localUser in
          if truthy token && truthy userStr then
            match JSON_parse rt (default "" userStr) with
            | Some u =>
                let s := set_user u s in
                let expiryStr := getItem "auth:expiry" (localStorage s) in
                if truthy expiryStr
                then Ok (set_tokenExpiryTime
                           (parseInt rt (default "" expiryStr)) s)
                else Ok s
            | None =>
                let s := set_console
                           (console s ++ ["Failed to restore user session:"]) s in
                Ok (logout s)
            end
          else Ok s
      end
  end.

(** The listener [setupCrossOriginListener] installs; it is installed
    only when [crossOriginEnabled] holds, and the configuration never
    changes afterwards. *)
Definition crossOriginListener (now : Z) (data : MessageData) (s : State)
  : State :=
  if crossOriginEnabled (config s) then
    match data with
    | AUTH_SHARE token u timestamp =>
        if fresh now (Some timestamp) then login u token now s else s
    | _ => s
    end
  else s.

(** [{ default, ...config }]: a property the caller gave wins, also
    when it is falsy. *)
Definition resolve (cfg : AuthConfig) (b : Browser) : Config :=
  {| domain := default (b_hostname b) (domain_opt cfg);
     secure := default (b_https b) (secure_opt cfg);
     sameSite := default lax (sameSite_opt cfg);
     crossOriginEnabled := default true (crossOriginEnabled_opt cfg);
     tokenExpiry := default (24 * 60 * 60 * 1000) (tokenExpiry_opt cfg) |}.

(** The object before [restoreSession] runs. *)
Definition blank (cfg : AuthConfig) (b : Browser) : State :=
  {| user := None; listeners := []; tokenExpiryTime := None;
     config := resolve cfg b;
     localStorage := b_localStorage b;
     sessionStorage := b_sessionStorage b;
     cookieJar := b_cookieJar b;
     href := b_href b;
     broadcastChannelSupported := b_broadcastChannelSupported b;
     outbox := []; calls := []; console := [] |}.

(** [new AuthManager(config)] when no instance exists yet. *)
Definition constructor (cfg : AuthConfig) (b : Browser) : Result State :=
  restoreSession (blank cfg b).

(** *** Inbound notifications ([listenForExternalChanges]) *)

(** In the three handlers [new AuthManager()] is the existing
    instance, that is the state at hand. *)
Definition channelListener (data : ChannelData) (s : State) : State :=
  match data with
  | ChLogin u => notify (set_user u s)
  | ChLogout => notify (set_user None s)
  | ChOther _ => s
  end.

Definition messageListener (data : MessageData) (s : State) : State :=
  match data with
  | AUTH_LOGIN u => notify (set_user u s)
  | AUTH_LOGOUT => notify (set_user None s)
  | _ => s
  end.

Definition storageListener (event : StorageEvent) (s : State) : State :=
  if bool_decide (key event = Some "auth:user")
     && negb (truthy (newValue event)) && truthy (oldValue event)
  then notify (set_user None s)
  else s.

(** A window [message] event reaches the listeners in the order they
    were added: the constructor's, then the one of
    [listenForExternalChanges]. *)
Definition dispatchMessage (now : Z) (data : MessageData) (s : State) : State :=
  messageListener data (crossOriginListener now data s).

End AuthManager.

(** ** The minimal variant ([src/index.ts])

    No configuration, no expiry, no cookies; [config], [tokenExpiryTime]
    and [cookieJar] are carried along untouched. [subscribe], [notify],
    [broadcast] and the inbound handlers are the same text as above. *)

Module Minimal.
Section Minimal.

Context (rt : Runtime).
Context (callback : Listener -> option User -> list CbAction).

Definition login (u : option User) (token : string) (s : State) : State :=
  let s := set_user u s in
  let s := set_localStorage (setItem "auth:token" token (localStorage s)) s in
  let s := set_localStorage
             (setItem "auth:user" (JSON_stringify rt u) (localStorage s)) s in
  let s := notify callback s in
  broadcast KLogin u s.

Definition logout (s : State) : State :=
  let s := set_user None s in
  let s := set_localStorage (removeItem "auth:token" (localStorage s)) s in
  let s := set_localStorage (removeItem "auth:user" (localStorage s)) s in
  let s := notify callback s in
  broadcast KLogout None s.

Definition isLoggedIn (s : State) : bool := bool_decide (is_Some (user s)).

Definition getUser (s : State) : option User := user s.

(** [JSON.parse] is called outside any [try]. *)
Definition restoreSession (s : State) : Result State :=
  let token := getItem "auth:token" (localStorage s) in
  let userStr := getItem "auth:user" (localStorage s) in
  if truthy token && truthy userStr then
    match JSON_parse rt (default "" userStr) with
    | Some u => Ok (set_user u s)
    | None => Throw SyntaxError
    end
  else Ok s.

Definition constructor (b : Browser) : Result State :=
  restoreSession (blank (mkAuthConfig None None None None None) b).

End Minimal.
End Minimal.

(** ** An executable runtime

    [browser] implements the built-ins on byte strings, closely enough to
    run the class on concrete inputs:
    - [JSON.stringify] writes a [User] as an object of string members and
      [null] as [null]; [JSON.parse] reads [null] and objects of string
      members, in any member order and with white space, and throws on
      any other text;
    - percent-encoding works byte by byte;
    - a URL is cut at the first [#] and the first [?]; its base must hold
      [://];
    - [parseInt] skips white space, takes a sign, then [0x] and
      hexadecimal digits or the longest run of decimal digits. *)

Module BrowserRuntime.

Definition dquote : ascii := "034"%char.
Definition code (c : ascii) : N := Ascii.N_of_ascii c.

Definition between (lo hi : N) (c : ascii) : bool :=
  (lo <=? code c)%N && (code c <=? hi)%N.
Definition is_digit (c : ascii) : bool := between 48 57 c.
Definition is_alnum (c : ascii) : bool :=
  is_digit c || between 65 90 c || between 97 122 c.

Fixpoint mem_char (c : ascii) (s : string) : bool :=
  match s with
  | EmptyString => false
  | String x s' => Ascii.eqb c x || mem_char c s'
  end.

Definition hex_digit (upper : bool) (n : N) : ascii :=
  if (n <? 10)%N then Ascii.ascii_of_N (48 + n)
  else Ascii.ascii_of_N ((if upper then 55 else 87) + n).

Definition hex_value (c : ascii) : option N :=
  if is_digit c then Some (code c - 48)%N
  else if between 65 70 c then Some (code c - 55)%N
  else if between 97 102 c then Some (code c - 87)%N
  else None.

Definition pct (c : ascii) : string :=
  String "%" (String (hex_digit true (code c / 16))
                (String (hex_digit true (code c mod 16)) "")).

(** *** Percent-encoding *)

Fixpoint encodeURIComponent (s : string) : string :=
  match s with
  | EmptyString => ""
  | String c s' =>
      (if is_alnum c || mem_char c "-_.!~*'()" then String c "" else pct c)
      +:+ encodeURIComponent s'
  end.

Fixpoint decodeURIComponent (s : string) : option string :=
  match s with
  | EmptyString => Some ""
  | String "%" (String a (String b s')) =>
      match hex_value a, hex_value b with
      | Some x, Some y =>
          String (Ascii.ascii_of_N (16 * x + y)) <$> decodeURIComponent s'
      | _, _ => None
      end
  | String "%" _ => None
  | String c s' => String c <$> decodeURIComponent s'
  end.

(** *** JSON *)

Definition json_escape (c : ascii) : string :=
  if Ascii.eqb c dquote then String "\" (String dquote "")
  else if Ascii.eqb c "\" then "\\"
  else if Ascii.eqb c "008" then "\b"
  else if Ascii.eqb c "009" then "\t"
  else if Ascii.eqb c "010" then "\n"
  else if Ascii.eqb c "012" then "\f"
  else if Ascii.eqb c "013" then "\r"
  else if (code c <? 32)%N then
    "\u00" +:+ String (hex_digit false (code c / 16))
                 (String (hex_digit false (code c mod 16)) "")
  else String c "".

Fixpoint json_escape_string (s : string) : string :=
  match s with
  | EmptyString => ""
  | String c s' => json_escape c +:+ json_escape_string s'
  end.

Definition quoted (s : string) : string :=
  String dquote (json_escape_string s +:+ String dquote "").

Definition member (k v : string) : string := quoted k +:+ ":" +:+ quoted v.

Definition JSON_stringify (u : option User) : string :=
  match u with
  | None => "null"
  | Some u =>
      "{" +:+ member "id" (id u) +:+ "," +:+ member "name" (name u)
      +:+ "," +:+ member "email" (email u)
      +:+ match role u with
          | Some r => "," +:+ member "role" r
          | None => ""
          end
      +:+ "}"
  end.

Definition is_ws (c : ascii) : bool := mem_char c (String " " (String "009" (String "010" (String "013" "")))).

Fixpoint skip_ws (s : string) : string :=
  match s with
  | String c s' => if is_ws c then skip_ws s' else s
  | EmptyString => ""
  end.

Definition unescape (c : ascii) : option ascii :=
  if Ascii.eqb c dquote then Some dquote
  else if Ascii.eqb c "\" then Some "\"%char
  else if Ascii.eqb c "/" then Some "/"%char
  else if Ascii.eqb c "b" then Some "008"%char
  else if Ascii.eqb c "t" then Some "009"%char
  else if Ascii.eqb c "n" then Some "010"%char
  else if Ascii.eqb c "f" then Some "012"%char
  else if Ascii.eqb c "r" then Some "013"%char
  else None.

(** The characters of a string literal after its opening quote, and
    what follows the closing quote. *)
Fixpoint string_body (s : string) : option (string * string) :=
  match s with
  | EmptyString => None
  | String "\" (String "u" (String "0" (String "0" (String a (String b s'))))) =>
      match hex_value a, hex_value b with
      | Some x, Some y =>
          if (16 * x + y <? 128)%N then
            prod_map (String (Ascii.ascii_of_N (16 * x + y))) (fun r => r)
              <$> string_body s'
          else None
      | _, _ => None
      end
  | String "\" (String e s') =>
      match unescape e with
      | Some c => prod_map (String c) (fun r => r) <$> string_body s'
      | None => None
      end
  | String c s' =>
      if Ascii.eqb c dquote then Some ("", s')
      else if Ascii.eqb c "\" then None
      else if (code c <? 32)%N then None
      else prod_map (String c) (fun r => r) <$> string_body s'
  end.

(** The members of an object after its opening brace. *)
Fixpoint members (fuel : nat) (s : string) (acc : list (string * string))
  : option (list (string * string) * string) :=
  match fuel with
  | O => None
  | S fuel' =>
      match skip_ws s with
      | String q s1 =>
          if Ascii.eqb q dquote then
            match string_body s1 with
            | Some (k, s2) =>
                match skip_ws s2 with
                | String ":" s3 =>
                    match skip_ws s3 with
                    | String q' s4 =>
                        if Ascii.eqb q' dquote then
                          match string_body s4 with
                          | Some (v, s5) =>
                              match skip_ws s5 with
                              | String "," s6 =>
                                  members fuel' s6 (acc ++ [(k, v)])
                              | String "}" s6 => Some (acc ++ [(k, v)], s6)
                              | _ => None
                              end
                          | None => None
                          end
                        else None
                    | EmptyString => None
                    end
                | _ => None
                end
            | None => None
            end
          else None
      | EmptyString => None
      end
  end.

(** The last member of a name is the one an object keeps. *)
Definition field (k : string) (ms : list (string * string)) : option string :=
  snd <$> List.find (fun p => String.eqb (fst p) k) (rev ms).

Definition JSON_parse (s : string) : option (option User) :=
  match skip_ws s with
  | String "n" (String "u" (String "l" (String "l" rest))) =>
      match skip_ws rest with
      | EmptyString => Some None
      | _ => None
      end
  | String "{" s1 =>
      match members (String.length s1) s1 [] with
      | Some (ms, rest) =>
          match skip_ws rest, field "id" ms, field "name" ms, field "email" ms with
          | EmptyString, Some i, Some n, Some e =>
              Some (Some (mkUser i n e (field "role" ms)))
          | _, _, _, _ => None
          end
      | None => None
      end
  | _ => None
  end.

(** *** URL *)

(** [s] up to the first [c], and what follows it. *)
Fixpoint cut (c : ascii) (s : string) : string * option string :=
  match s with
  | EmptyString => ("", None)
  | String x s' =>
      if Ascii.eqb x c then ("", Some s')
      else let '(a, b) := cut c s' in (String x a, b)
  end.

Fixpoint form_encode (s : string) : string :=
  match s with
  | EmptyString => ""
  | String c s' =>
      (if is_alnum c || mem_char c "*-._" then String c ""
       else if Ascii.eqb c " " then "+"
       else pct c)
      +:+ form_encode s'
  end.

Fixpoint form_decode (s : string) : string :=
  match s with
  | EmptyString => ""
  | String "%" (String a (String b s') as rest) =>
      match hex_value a, hex_value b with
      | Some x, Some y =>
          String (Ascii.ascii_of_N (16 * x + y)) (form_decode s')
      | _, _ => String "%" (form_decode rest)
      end
  | String "+" s' => String " " (form_decode s')
  | String c s' => String c (form_decode s')
  end.

(** One [name=value] piece of a query; an empty piece is skipped. *)
Definition query_piece (piece : string) : option (string * string) :=
  if String.eqb piece "" then None
  else let '(k, v) := cut "=" piece in
       Some (form_decode k, form_decode (default "" v)).

Definition parse_query (q : string) : list (string * string) :=
  omap query_piece (split q "&").

Definition pair_text (p : string * string) : string :=
  form_encode (fst p) +:+ "=" +:+ form_encode (snd p).

Definition URL_parse (s : string) : option URL :=
  let '(rest, h) := cut "#" s in
  let '(base, q) := cut "?" rest in
  if (2 <=? length (split base "://"))%nat then
    Some (mkURL base (parse_query (default "" q))
            (match h with Some x => "#" +:+ x | None => "" end))
  else None.

Definition URL_toString (u : URL) : string :=
  url_base u
  +:+ match searchParams u with
      | [] => ""
      | ps => "?" +:+ String.concat "&" (List.map pair_text ps)
      end
  +:+ url_hash u.

(** *** Numbers *)

Definition Number_toString (z : Z) : string :=
  DecimalString.NilZero.string_of_int (Z.to_int z).

Fixpoint decimal_prefix (s : string) (acc : option Z) : option Z :=
  match s with
  | String c s' =>
      if is_digit c
      then decimal_prefix s' (Some (10 * default 0 acc + Z.of_N (code c - 48)))
      else acc
  | EmptyString => acc
  end.

Fixpoint hex_prefix (s : string) (acc : option Z) : option Z :=
  match s with
  | String c s' =>
      match hex_value c with
      | Some d => hex_prefix s' (Some (16 * default 0 acc + Z.of_N d))
      | None => acc
      end
  | EmptyString => acc
  end.

Definition magnitude (s : string) : option Z :=
  match s with
  | String "0" (String "x" s') => hex_prefix s' None
  | String "0" (String "X" s') => hex_prefix s' None
  | _ => decimal_prefix s None
  end.

Definition parseInt (s : string) : option Z :=
  match skip_ws s with
  | String "-" s' => Z.opp <$> magnitude s'
  | String "+" s' => magnitude s'
  | s' => magnitude s'
  end.

End BrowserRuntime.

Definition browser : Runtime :=
  {| JSON_stringify := BrowserRuntime.JSON_stringify;
     JSON_parse := BrowserRuntime.JSON_parse;
     encodeURIComponent := BrowserRuntime.encodeURIComponent;
     decodeURIComponent := BrowserRuntime.decodeURIComponent;
     URL_parse := BrowserRuntime.URL_parse;
     URL_toString := BrowserRuntime.URL_toString;
     Number_toString := BrowserRuntime.Number_toString;
     parseInt := BrowserRuntime.parseInt |}.


Arguments unsubscribe listener s /.

(** ** Vocabulary of the statements *)

(** [s'] is [s] up to the subscriber list. *)
Definition same_but_listeners (s s' : State) : Prop :=
  s' = set_listeners (listeners s') s.

(** What [broadcast] leaves in the outbox and on the console. *)
Definition posted (k : Kind) (u : option User) (s : State) : list Outbound :=
  if broadcastChannelSupported s
  then (outbox s ++ [WindowPost k u]) ++ [ChannelPost k u]
  else outbox s ++ [WindowPost k u].

Definition warned (s : State) : list string :=
  if broadcastChannelSupported s then console s
  else console s ++ ["BroadcastChannel not supported"].

(** A session is cleared when the object and the three persisted copies
    hold nothing of it. *)
Definition cleared (s : State) : Prop :=
  getUser s = None
  /\ tokenExpiryTime s = None
  /\ getToken s = None
  /\ localStorage s !! "auth:token" = None
  /\ localStorage s !! "auth:user" = None
  /\ localStorage s !! "auth:expiry" = None
  /\ sessionStorage s !! "auth:token" = None
  /\ sessionStorage s !! "auth:user" = None
  /\ sp_get "auth_token" (cookieJar s) = None
  /\ sp_get "auth_user" (cookieJar s) = None.


(** [subscribe] called for each of [ls] in turn. *)
Definition register (ls : list Listener) (s : State) : State :=
  foldl (fun s l => fst (subscribe l s)) s ls.

(** [s'] is [s] with the subject set to [u] and the subscribers called
    once each with [u]; storages, cookies, deadline, outbox and console
    are those of [s]. *)
Definition applied (u : option User) (s s' : State) : Prop :=
  exists L,
    s' = set_listeners L
           (set_calls (calls s ++ map (fun l => (l, u)) (listeners s))
              (set_user u s)).

(** Restoration as the specification words it: the sources are taken in
    priority order and the first one whose token and subject are both
    non-empty gives the pair. *)
Definition first_complete_pair
    (cookieToken cookieUser localToken localUser : option string)
  : option (string * string) :=
  if truthy cookieToken && truthy cookieUser
  then Some (default "" cookieToken, default "" cookieUser)
  else if truthy localToken && truthy localUser
  then Some (default "" localToken, default "" localUser)
  else None.

(** What the code selects: each field on its own, the cookie's value
    when it is non-empty and the one of [localStorage] otherwise. *)
Definition selected (cookieValue localValue : option string) : option string :=
  or_else cookieValue localValue.

Section Vocabulary.

Context (rt : Runtime).
Context (callback : Listener -> option User -> list CbAction).

(** The cookie jar after [login] and after [logout]. *)
Definition jar_after_login (u : option User) (token : string) (s : State)
  : list (string * string) :=
  cookieJar
    (setCookie rt "auth_user" (JSON_stringify rt u) (tokenExpiry (config s))
       (setCookie rt "auth_token" token (tokenExpiry (config s)) s)).

Definition jar_after_logout (s : State) : list (string * string) :=
  cookieJar (deleteCookie rt "auth_user" (deleteCookie rt "auth_token" s)).

(** The URL [generateAuthUrl] serializes: the target with the three
    parameters set. *)
Definition with_auth (url : URL) (token : string) (u : User) (now : Z) : URL :=
  mkURL (url_base url)
    (sp_set "auth_timestamp" (Number_toString rt now)
       (sp_set "auth_user" (JSON_stringify rt (Some u))
          (sp_set "auth_token" token (searchParams url))))
    (url_hash url).

(** "Restoration adopts the first complete pair and never mixes the
    sources", for one construction: a subject that parses is restored
    from that pair, and nothing is restored without a complete pair. *)
Definition restores_first_complete_pair (cfg : AuthConfig) (b : Browser)
  : Prop :=
  forall s cookieToken cookieUser,
    constructor rt callback cfg b = Ok s ->
    getCookie rt "auth_token" (blank cfg b) = Ok cookieToken ->
    getCookie rt "auth_user" (blank cfg b) = Ok cookieUser ->
    match first_complete_pair cookieToken cookieUser
            (getItem "auth:token" (b_localStorage b))
            (getItem "auth:user" (b_localStorage b)) with
    | Some (_, userStr) =>
        forall u, JSON_parse rt userStr = Some u -> user s = u
    | None => user s = None
    end.

(** The receive-side policy as the specification words it, for one
    window message: applying it posts nothing. *)
Definition no_rebroadcast (now : Z) (data : MessageData) (s : State) : Prop :=
  outbox (dispatchMessage rt callback now data s) = outbox s.

End Vocabulary.

(** ** Concrete inputs *)

Definition alice : User :=
  mkUser "u1" "Alice" "alice@example.com" (Some "admin").

(** Subscribers whose bodies leave the subscription list alone. *)
Definition quiet : Listener -> option User -> list CbAction := fun _ _ => [].

(** Subscriber 1 unsubscribes itself and subscriber 2 while it runs,
    subscriber 2 subscribes a new callback 7. *)
Definition restless : Listener -> option User -> list CbAction :=
  fun l _ =>
    match l with
    | 1%nat => [CbUnsubscribe 1%nat; CbUnsubscribe 2%nat]
    | 2%nat => [CbSubscribe 7%nat]
    | _ => []
    end.

(** An empty browser on https://app.example.com/, and a one-minute
    lifetime. *)
Definition empty_browser : Browser :=
  mkBrowser "app.example.com" true ∅ ∅ [] "https://app.example.com/" true.

Definition one_minute : AuthConfig :=
  mkAuthConfig None None None None (Some 60000).

Definition logged_out : State := blank one_minute empty_browser.

(** Alice logged in at instant 1000. *)
Definition logged_in : State :=
  login browser quiet (Some alice) "tok-1" 1000 logged_out.


Definition landing : URL := mkURL "https://other.example.com/landing" [] "".

(** A context whose location is the hand-off URL made at instant 2000. *)
Definition arriving : State :=
  set_href (URL_toString browser (with_auth browser landing "tok-1" alice 2000))
    logged_out.

(** [localStorage] holds a token and a subject text that is not JSON. *)
Definition corrupt_browser : Browser :=
  mkBrowser "app.example.com" true
    (<["auth:token" := "tok-1"]> (<["auth:user" := "{oops"]> ∅))
    ∅ [] "https://app.example.com/" true.

(** The cookie copy holds a token only, [localStorage] a subject only. *)
Definition mixed_browser : Browser :=
  mkBrowser "app.example.com" true
    (<["auth:user" := JSON_stringify browser (Some alice)]> ∅)
    ∅ [("auth_token", "abc")] "https://app.example.com/" true.

(** ** Cookies, stores and locations *)

(** A string without the character [c]. *)
Definition lacks (c : ascii) (s : string) : Prop :=
  BrowserRuntime.mem_char c s = false.

(** A cookie name the browser can hold: no [;] and no [=]. *)
Definition clean_name (n : string) : Prop := lacks ";" n /\ lacks "=" n.

(** A jar as the browser keeps it: clean names, values without [;]. *)
Definition clean_jar (jar : list (string * string)) : Prop :=
  Forall (fun p => clean_name (fst p) /\ lacks ";" (snd p)) jar.

(** The cookies of a name. *)
Definition named (n : string) (jar : list (string * string))
  : list (string * string) :=
  List.filter (fun p => String.eqb (fst p) n) jar.

(** [name=value], and the jar's text with ["; "] before each cookie. *)
Definition cookie_text (p : string * string) : string :=
  fst p +:+ "=" +:+ snd p.

Fixpoint jar_text (jar : list (string * string)) : string :=
  match jar with
  | [] => ""
  | p :: jar' => "; " +:+ cookie_text p +:+ jar_text jar'
  end.

(** The separator [getCookie] splits at. *)
Definition cookie_sep (n : string) : string := "; " +:+ n +:+ "=".

(** At most one cookie of a name. *)
Definition at_most_one (n : string) (jar : list (string * string)) : Prop :=
  (length (named n jar) <= 1)%nat.

(** [s'] has the persisted copies, the deadline, the outbox and the
    location of [s]. *)
Definition same_stores (s s' : State) : Prop :=
  localStorage s' = localStorage s
  /\ sessionStorage s' = sessionStorage s
  /\ cookieJar s' = cookieJar s
  /\ tokenExpiryTime s' = tokenExpiryTime s
  /\ outbox s' = outbox s
  /\ href s' = href s.

(** The parameters a hand-off adds to a location. *)
Definition auth_param (k : string) : bool :=
  String.eqb k "auth_token" || String.eqb k "auth_user"
  || String.eqb k "auth_timestamp".

(** The location [processAuthFromUrl] leaves after a login. *)
Definition cleaned (url : URL) : URL :=
  mkURL (url_base url)
    (sp_delete "auth_timestamp"
       (sp_delete "auth_user" (sp_delete "auth_token" (searchParams url))))
    (url_hash url).

(** A context that keeps a cookie of another application, and Alice
    logged in there at instant 1000. *)
Definition themed : State := set_cookieJar [("theme", "dark")] logged_out.

Definition themed_in : State :=
  login browser quiet (Some alice) "tok-1" 1000 themed.


(** Another application of the cookie domain: the cookies of
    [themed_in], storages of its own. *)
Definition sibling : Browser :=
  mkBrowser "shop.example.com" true ∅ ∅
    (cookieJar themed_in) "https://shop.example.com/" true.



(** A token cookie that is not a percent-encoding. *)
Definition malformed_browser : Browser :=
  mkBrowser "app.example.com" true ∅ ∅ [("auth_token", "%")]
    "https://app.example.com/" true.

Ltac split_all := repeat match goal with |- _ /\ _ => split end.

(** Closes a goal about concrete inputs by evaluation. *)
Ltac run :=
  vm_compute;
  first [ reflexivity | discriminate
        | let H := fresh in intros H; discriminate H ].

(** Closes [clean_jar] of a concrete jar. *)
Ltac clean := vm_compute; repeat constructor.

(** ** What a notification pass changes *)

Section Notify.

Context (callback : Listener -> option User -> list CbAction).

Lemma same_but_listeners_refl s : same_but_listeners s s.
Proof. by destruct s. Qed.

Lemma same_but_listeners_trans s1 s2 s3 :
  same_but_listeners s1 s2 -> same_but_listeners s2 s3 ->
  same_but_listeners s1 s3.
Proof.
  unfold same_but_listeners. intros H12 H23.
  rewrite H23, H12. by destruct s1.
Qed.

Lemma run_action_spec a arr aliased s :
  exists ext aliased' s',
    run_action a (arr, aliased, s) = (arr ++ ext, aliased', s')
    /\ same_but_listeners s s'.
Proof.
  destruct a as [l|l]; simpl.
  - destruct aliased.
    + exists [l], true. eexists. split; [reflexivity|]. by destruct s.
    + exists [], false. eexists. rewrite app_nil_r.
      split; [reflexivity|]. by destruct s.
  - exists [], false. eexists. rewrite app_nil_r.
    split; [reflexivity|]. by destruct s.
Qed.

Lemma run_body_spec body : forall arr aliased s,
  exists ext aliased' s',
    run_body body (arr, aliased, s) = (arr ++ ext, aliased', s')
    /\ same_but_listeners s s'.
Proof.
  unfold run_body.
  induction body as [|a body IH]; intros arr aliased s; cbn [foldl].
  - exists [], aliased, s. rewrite app_nil_r.
    split; [done | apply same_but_listeners_refl].
  - destruct (run_action_spec a arr aliased s) as (e1 & al1 & s1 & -> & H1).
    destruct (IH (arr ++ e1) al1 s1) as (e2 & al2 & s2 & -> & H2).
    exists (e1 ++ e2), al2, s2. rewrite app_assoc.
    split; [done | by eapply same_but_listeners_trans].
Qed.

(** A pass over [ls0] started at index [k] calls the subscribers
    [drop k ls0], each once, in order and with the same argument,
    whatever the bodies do to the subscription list. *)
Lemma forEach_listener_spec ls0 : forall n k extra aliased s,
  (k + n = length ls0)%nat ->
  exists L,
    forEach_listener callback n k (ls0 ++ extra) aliased s =
    set_listeners L
      (set_calls (calls s ++ map (fun l => (l, user s)) (drop k ls0)) s).
Proof.
  induction n as [|n IH]; intros k extra aliased s Hk; simpl.
  - exists (listeners s).
    rewrite drop_ge by lia. simpl. rewrite app_nil_r. by destruct s.
  - assert (Hlt : (k < length ls0)%nat) by lia.
    destruct (lookup_lt_is_Some_2 ls0 k Hlt) as [l Hl].
    rewrite (lookup_app_l_Some _ _ _ _ Hl).
    rewrite (drop_S _ _ _ Hl).
    set (s1 := set_calls (calls s ++ [(l, user s)]) s).
    destruct (run_body_spec (callback l (user s)) (ls0 ++ extra) aliased s1)
      as (ext & al' & s2 & -> & H2).
    rewrite <- app_assoc.
    destruct (IH (S k) (extra ++ ext) al' s2) as [L HL]; [lia|].
    exists L. rewrite HL, H2. subst s1.
    destruct s; simpl. by rewrite <- app_assoc.
Qed.

Lemma notify_spec s :
  exists L,
    notify callback s =
    set_listeners L
      (set_calls (calls s ++ map (fun l => (l, user s)) (listeners s)) s).
Proof.
  unfold notify.
  destruct (forEach_listener_spec (listeners s) (length (listeners s)) 0 []
              true s) as [L HL]; [lia|].
  rewrite app_nil_r in HL. by exists L.
Qed.

Lemma notify_applied u s : applied u s (notify callback (set_user u s)).
Proof.
  destruct (notify_spec (set_user u s)) as [L HL].
  exists L. rewrite HL. by destruct s.
Qed.

Lemma applied_outbox u s s' : applied u s s' -> outbox s' = outbox s.
Proof. intros [L ->]. by destruct s. Qed.

End Notify.

(** ** [login] and [logout] in closed form *)

Section Session.

Context (rt : Runtime).
Context (callback : Listener -> option User -> list CbAction).

Ltac open_notify :=
  match goal with
  | |- context [notify callback ?x] =>
      let L := fresh "L" in
      let HL := fresh "HL" in
      destruct (notify_spec callback x) as [L HL]; rewrite HL; clear HL
  end.

Lemma login_unfold u token now s :
  exists L,
    login rt callback u token now s =
    {| user := u;
       listeners := L;
       tokenExpiryTime := Some (now + tokenExpiry (config s));
       config := config s;
       localStorage :=
         <["auth:expiry" := Number_toString rt (now + tokenExpiry (config s))]>
           (<["auth:user" := JSON_stringify rt u]>
              (<["auth:token" := token]> (localStorage s)));
       sessionStorage :=
         <["auth:user" := JSON_stringify rt u]>
           (<["auth:token" := token]> (sessionStorage s));
       cookieJar := jar_after_login rt u token s;
       href := href s;
       broadcastChannelSupported := broadcastChannelSupported s;
       outbox := posted KLogin u s;
       calls := calls s ++ map (fun l => (l, u)) (listeners s);
       console := warned s |}.
Proof.
  unfold login. open_notify. exists L.
  unfold posted, warned, jar_after_login, broadcast.
  destruct s as [? ? ? ? ? ? ? ? [] ? ? ?]; reflexivity.
Qed.

Lemma logout_unfold s :
  exists L,
    logout rt callback s =
    {| user := None;
       listeners := L;
       tokenExpiryTime := None;
       config := config s;
       localStorage :=
         delete "auth:expiry"
           (delete "auth:user" (delete "auth:token" (localStorage s)));
       sessionStorage :=
         delete "auth:user" (delete "auth:token" (sessionStorage s));
       cookieJar := jar_after_logout rt s;
       href := href s;
       broadcastChannelSupported := broadcastChannelSupported s;
       outbox := posted KLogout None s;
       calls := calls s ++ map (fun l => (l, None)) (listeners s);
       console := warned s |}.
Proof.
  unfold logout. open_notify. exists L.
  unfold posted, warned, jar_after_logout, broadcast.
  destruct s as [? ? ? ? ? ? ? ? [] ? ? ?]; reflexivity.
Qed.

Lemma jar_remove_absent n jar : sp_get n (jar_remove n jar) = None.
Proof.
  unfold sp_get, jar_remove.
  induction jar as [|p jar IH]; simpl; [done|].
  destruct (String.eqb (fst p) n) eqn:E; simpl; [done|].
  by rewrite E.
Qed.

Lemma jar_remove_other n m jar :
  sp_get n jar = None -> sp_get n (jar_remove m jar) = None.
Proof.
  unfold sp_get, jar_remove.
  induction jar as [|p jar IH]; simpl; [done|].
  destruct (String.eqb (fst p) n) eqn:E; simpl; [done|].
  intros H. destruct (String.eqb (fst p) m); simpl; [by apply IH|].
  rewrite E. by apply IH.
Qed.

(** After [logout] the jar holds neither cookie. *)
Lemma jar_after_logout_clear s :
  sp_get "auth_token" (jar_after_logout rt s) = None
  /\ sp_get "auth_user" (jar_after_logout rt s) = None.
Proof.
  unfold jar_after_logout, deleteCookie, setCookie, document_cookie_assign.
  simpl. split.
  - apply jar_remove_other, jar_remove_absent.
  - apply jar_remove_absent.
Qed.

Lemma logout_cleared s : cleared (logout rt callback s).
Proof.
  destruct (logout_unfold s) as [L ->].
  destruct (jar_after_logout_clear s) as [Ht Hu].
  unfold cleared, getUser, getToken, getItem, or_else; simpl.
  by simplify_map_eq.
Qed.

Lemma isLoggedIn_active now s :
  is_Some (user s) -> expired now s = false ->
  isLoggedIn rt callback now s = (s, true).
Proof. intros [u Hu] He. unfold isLoggedIn. by rewrite Hu, He. Qed.

Lemma isLoggedIn_no_user now s :
  getUser s = None -> isLoggedIn rt callback now s = (s, false).
Proof. unfold getUser. intros Hu. unfold isLoggedIn. by rewrite Hu. Qed.

Lemma isLoggedIn_expired now s :
  is_Some (user s) -> expired now s = true ->
  isLoggedIn rt callback now s = (logout rt callback s, false).
Proof. intros [u Hu] He. unfold isLoggedIn. by rewrite Hu, He. Qed.


(** C1. With lifetime [L] configured, [login] at [t0] makes
    [isLoggedIn()] at [t0 + L - 1] return true and leave the state as it
    is, and makes [isLoggedIn()] at [t0 + L + 1] return false and clear
    the whole session, so that [getUser()] is absent afterwards. The
    deadline [t0 + L] must not be the number 0, which JavaScript takes
    for "no deadline"; it never is when the clock is past the epoch and
    [L] is not negative. *)
Theorem login_then_expiry (u : User) (token : string) (t0 L : Z) (s : State) :
  tokenExpiry (config s) = L ->
  t0 + L <> 0 ->
  isLoggedIn rt callback (t0 + L - 1)
    (login rt callback (Some u) token t0 s)
  = (login rt callback (Some u) token t0 s, true)
  /\ snd (isLoggedIn rt callback (t0 + L + 1)
            (login rt callback (Some u) token t0 s)) = false
  /\ cleared (fst (isLoggedIn rt callback (t0 + L + 1)
                     (login rt callback (Some u) token t0 s)))
  /\ getUser (fst (isLoggedIn rt callback (t0 + L + 1)
                     (login rt callback (Some u) token t0 s))) = None.
Proof.
  intros HL Hne.
  remember (login rt callback (Some u) token t0 s) as s1 eqn:Es1.
  assert (Hu : user s1 = Some u /\ tokenExpiryTime s1 = Some (t0 + L)).
  { subst s1. destruct (login_unfold (Some u) token t0 s) as [Ls ->].
    simpl. by rewrite HL. }
  clear Es1. destruct Hu as [Hu He].
  assert (Hlate : expired (t0 + L + 1) s1 = true).
  { unfold expired. rewrite He. simpl.
    apply andb_true_iff. split.
    - apply negb_true_iff, Z.eqb_neq, Hne.
    - apply Z.ltb_lt. lia. }
  assert (Hearly : expired (t0 + L - 1) s1 = false).
  { unfold expired. rewrite He. simpl.
    apply andb_false_iff. right. apply Z.ltb_ge. lia. }
  rewrite (isLoggedIn_active _ s1) by (rewrite ?Hu; eauto).
  rewrite (isLoggedIn_expired _ s1) by (rewrite ?Hu; eauto).
  cbn [fst snd].
  pose proof (logout_cleared s1) as Hc.
  split; [done|]. split; [done|]. split; [done|]. apply Hc.
Qed.

End Session.

(** ** Subscribers *)

Section Subscribers.

Context (rt : Runtime).
Context (callback : Listener -> option User -> list CbAction).

Lemma register_listeners ls : forall s,
  listeners (register ls s) = listeners s ++ ls.
Proof.
  unfold register.
  induction ls as [|l ls IH]; intros s; simpl.
  - by rewrite app_nil_r.
  - rewrite IH. simpl. by rewrite <- app_assoc.
Qed.

Lemma register_calls ls : forall s, calls (register ls s) = calls s.
Proof.
  unfold register.
  induction ls as [|l ls IH]; intros s; simpl; [done|]. by rewrite IH.
Qed.

Lemma minimal_login_calls u token s :
  calls (Minimal.login rt callback u token s) =
  calls s ++ map (fun l => (l, u)) (listeners s).
Proof.
  unfold Minimal.login.
  match goal with
  | |- context [notify callback ?x] =>
      destruct (notify_spec callback x) as [L ->]
  end.
  unfold broadcast.
  destruct s as [? ? ? ? ? ? ? ? [] ? ? ?]; reflexivity.
Qed.

(** C7. After [N] subscribers [ls] were registered, [login] calls each
    registration exactly once, in registration order, with the new
    subject: the calls it adds to the log are, one per registration,
    those of the earlier registrations followed by those of [ls]. This
    holds for every [callback], so also when a subscriber's body
    unsubscribes itself or another subscriber, or subscribes one,
    during the pass; and it holds for the [login] of both variants. *)
Theorem login_calls_each_subscriber_once
    (ls : list Listener) (u : User) (token : string) (now : Z) (s : State) :
  calls (login rt callback (Some u) token now (register ls s)) =
  calls s ++ map (fun l => (l, Some u)) (listeners s ++ ls)
  /\ calls (Minimal.login rt callback (Some u) token (register ls s)) =
     calls s ++ map (fun l => (l, Some u)) (listeners s ++ ls).
Proof.
  split.
  - destruct (login_unfold rt callback (Some u) token now (register ls s))
      as [L ->].
    simpl. by rewrite register_calls, register_listeners.
  - by rewrite minimal_login_calls, register_calls, register_listeners.
Qed.

(** C10. The handle returned by [subscribe(callback)] removes every
    registration that is the same reference as the callback and keeps
    the others in order, whatever was registered in between; when the
    callback was subscribed twice the two handles are the same
    operation and either removes both registrations; calling a handle
    again right after leaves the state, and so the subscriber list,
    unchanged. *)
Theorem unsubscribe_handle_removes_all (l : Listener) (s : State) :
  let '(s1, h1) := subscribe l s in
  let '(s2, h2) := subscribe l s1 in
  (forall s', listeners (h1 s') = filter (fun x => x <> l) (listeners s'))
  /\ (forall s', l ∉ listeners (h1 s'))
  /\ (forall s', h1 (h1 s') = h1 s')
  /\ listeners s2 = (listeners s ++ [l]) ++ [l]
  /\ h1 = h2
  /\ listeners (h1 s2) = filter (fun x => x <> l) (listeners s)
  /\ listeners (h2 s2) = filter (fun x => x <> l) (listeners s)
  /\ listeners (h2 (h1 s2)) = listeners (h1 s2).
Proof.
  simpl.
  assert (Hgone : forall ls, filter (fun x : Listener => x <> l) (ls ++ [l])
                             = filter (fun x => x <> l) ls).
  { intros ls. rewrite filter_app, filter_cons_False by (intros H; by apply H).
    by rewrite filter_nil, app_nil_r. }
  split_all.
  - done.
  - intros s' Hin. apply list_elem_of_filter in Hin. by destruct Hin.
  - intros s'. by rewrite list_filter_filter_l.
  - done.
  - done.
  - by rewrite !Hgone.
  - by rewrite !Hgone.
  - by rewrite list_filter_filter_l.
Qed.

End Subscribers.

(** ** URLSearchParams laws *)

Lemma sp_get_delete_ne k k' ps :
  k <> k' -> sp_get k (sp_delete k' ps) = sp_get k ps.
Proof.
  intros Hne. unfold sp_get, sp_delete.
  induction ps as [|p ps IH]; simpl; [done|].
  destruct (String.eqb (fst p) k') eqn:E'; simpl.
  - apply String.eqb_eq in E'.
    destruct (String.eqb (fst p) k) eqn:E; [|done].
    apply String.eqb_eq in E. congruence.
  - destruct (String.eqb (fst p) k); [done | apply IH].
Qed.

Lemma sp_get_set_eq k v ps : sp_get k (sp_set k v ps) = Some v.
Proof.
  unfold sp_get.
  induction ps as [|p ps IH]; simpl.
  - by rewrite String.eqb_refl.
  - destruct (String.eqb (fst p) k) eqn:E; simpl.
    + by rewrite String.eqb_refl.
    + by rewrite E.
Qed.

Lemma sp_get_set_ne k k' v ps :
  k <> k' -> sp_get k (sp_set k' v ps) = sp_get k ps.
Proof.
  intros Hne.
  assert (Hkk : String.eqb k' k = false) by (apply String.eqb_neq; congruence).
  induction ps as [|p ps IH]; simpl.
  - unfold sp_get. simpl. by rewrite Hkk.
  - destruct (String.eqb (fst p) k') eqn:E'.
    + apply String.eqb_eq in E'.
      change (sp_get k ((k', v) :: sp_delete k' ps) = sp_get k (p :: ps)).
      unfold sp_get at 1 2. simpl. rewrite Hkk, E', Hkk.
      apply (sp_get_delete_ne k k' ps Hne).
    + change (sp_get k (p :: sp_set k' v ps) = sp_get k (p :: ps)).
      unfold sp_get at 1 2. simpl.
      destruct (String.eqb (fst p) k); [done | apply IH].
Qed.

Lemma truthy_of_nonempty t : t <> "" -> truthy (Some t) = true.
Proof. intros H. simpl. by apply negb_true_iff, String.eqb_neq. Qed.

Lemma set_console_same s : set_console (console s) s = s.
Proof. by destruct s. Qed.

(** ** Hand-off: encoding *)

Section Encode.

Context (rt : Runtime).
Context (callback : Listener -> option User -> list CbAction).

Lemma with_auth_params url token u now :
  sp_get "auth_token" (searchParams (with_auth rt url token u now))
  = Some token
  /\ sp_get "auth_user" (searchParams (with_auth rt url token u now))
     = Some (JSON_stringify rt (Some u))
  /\ sp_get "auth_timestamp" (searchParams (with_auth rt url token u now))
     = Some (Number_toString rt now).
Proof.
  cbn [with_auth searchParams]. split_all.
  - rewrite !sp_get_set_ne by done. apply sp_get_set_eq.
  - rewrite sp_get_set_ne by done. apply sp_get_set_eq.
  - apply sp_get_set_eq.
Qed.

Lemma generateAuthUrl_active targetUrl url now s u token :
  URL_parse rt targetUrl = Some url ->
  user s = Some u -> expired now s = false ->
  getToken s = Some token -> token <> "" ->
  generateAuthUrl rt callback targetUrl now s =
  (s, Ok (URL_toString rt (with_auth rt url token u now))).
Proof.
  intros Hurl Hu He Ht Hne. unfold generateAuthUrl.
  rewrite (isLoggedIn_active rt callback now s) by (rewrite ?Hu; eauto).
  cbn [negb]. unfold getUser.
  rewrite Hu, Ht, (truthy_of_nonempty _ Hne), Hurl.
  reflexivity.
Qed.




End Encode.

(** ** Hand-off: decoding *)

Section Decode.

Context (rt : Runtime).
Context (callback : Listener -> option User -> list CbAction).

Lemma fresh_stale now t : 5 * 60 * 1000 <= now - t -> fresh now (Some t) = false.
Proof. intros H. unfold fresh. apply Z.ltb_ge. lia. Qed.

Lemma fresh_recent now t : now - t < 5 * 60 * 1000 -> fresh now (Some t) = true.
Proof. intros H. unfold fresh. apply Z.ltb_lt. lia. Qed.

(** C5. A hand-off payload whose timestamp is more than five minutes
    older than the current instant is rejected on both paths.
    [processAuthFromUrl()] returns false and leaves the state as it was
    (the one thing it may add is a console line, when the subject does
    not parse); the [AUTH_SHARE] listener, and the whole dispatch of
    the [message] event, leave the state as it was. No login takes
    place on either path. *)
Theorem stale_handoff_is_rejected (now t : Z) (ts : string) (loc : URL)
    (s : State) :
  URL_parse rt (href s) = Some loc ->
  sp_get "auth_timestamp" (searchParams loc) = Some ts ->
  parseInt rt ts = Some t ->
  5 * 60 * 1000 < now - t ->
  snd (processAuthFromUrl rt callback now s) = false
  /\ set_console (console s) (fst (processAuthFromUrl rt callback now s)) = s
  /\ (forall token u s',
        crossOriginListener rt callback now (AUTH_SHARE token u t) s' = s')
  /\ (forall token u s',
        dispatchMessage rt callback now (AUTH_SHARE token u t) s' = s').
Proof.
  intros Hloc Hts Hparse Hold.
  assert (Hstale : fresh now (Some t) = false) by (apply fresh_stale; lia).
  assert (Hlisten : forall token u s',
             crossOriginListener rt callback now (AUTH_SHARE token u t) s' = s').
  { intros token u s'. unfold crossOriginListener.
    rewrite Hstale. by destruct (crossOriginEnabled _). }
  split_all.
  - unfold processAuthFromUrl. rewrite Hloc, Hts.
    destruct (truthy _ && truthy _ && truthy _); [|done].
    destruct (JSON_parse rt _); [|done].
    change (default "" (Some ts)) with ts. by rewrite Hparse, Hstale.
  - unfold processAuthFromUrl. rewrite Hloc, Hts.
    destruct (truthy _ && truthy _ && truthy _);
      [|apply set_console_same].
    destruct (JSON_parse rt _).
    + change (default "" (Some ts)) with ts.
      rewrite Hparse, Hstale. apply set_console_same.
    + cbn [fst]. by destruct s.
  - exact Hlisten.
  - intros token u s'. unfold dispatchMessage. by rewrite Hlisten.
Qed.

(** The round trip of the hand-off for any runtime that reads back what
    it wrote for the values at hand: the URL, the subject's JSON text
    and the timestamp's digits. *)
Lemma handoff_round_trip_lawful (S : User) (T targetUrl : string) (url : URL)
    (t1 t2 : Z) (sender receiver : State) :
  user sender = Some S ->
  expired t1 sender = false ->
  getToken sender = Some T ->
  T <> "" ->
  URL_parse rt targetUrl = Some url ->
  URL_parse rt (URL_toString rt (with_auth rt url T S t1))
  = Some (with_auth rt url T S t1) ->
  JSON_parse rt (JSON_stringify rt (Some S)) = Some (Some S) ->
  JSON_stringify rt (Some S) <> "" ->
  parseInt rt (Number_toString rt t1) = Some t1 ->
  Number_toString rt t1 <> "" ->
  href receiver = URL_toString rt (with_auth rt url T S t1) ->
  t2 - t1 < 5 * 60 * 1000 ->
  generateAuthUrl rt callback targetUrl t1 sender
  = (sender, Ok (URL_toString rt (with_auth rt url T S t1)))
  /\ snd (processAuthFromUrl rt callback t2 receiver) = true
  /\ getUser (fst (processAuthFromUrl rt callback t2 receiver)) = Some S
  /\ getToken (fst (processAuthFromUrl rt callback t2 receiver)) = Some T.
Proof.
  intros Hu He Ht HT Hurl Hback Hjson Hjne Hnum Hnne Hhref Hwin.
  destruct (with_auth_params rt url T S t1) as (Pt & Pu & Ps).
  split.
  { by apply generateAuthUrl_active. }
  assert (Hrun : exists L,
    processAuthFromUrl rt callback t2 receiver =
    (set_href
       (URL_toString rt
          (mkURL (url_base (with_auth rt url T S t1))
             (sp_delete "auth_timestamp"
                (sp_delete "auth_user"
                   (sp_delete "auth_token"
                      (searchParams (with_auth rt url T S t1)))))
             (url_hash (with_auth rt url T S t1))))
       (set_listeners L (login rt callback (Some S) T t2 receiver)),
     true)).
  { unfold processAuthFromUrl.
    destruct (login_unfold rt callback (Some S) T t2 receiver) as [L HL].
    exists L.
    rewrite Hhref, Hback, Pt, Pu, Ps.
    rewrite (truthy_of_nonempty _ HT), (truthy_of_nonempty _ Hjne),
      (truthy_of_nonempty _ Hnne).
    cbn [andb from_option]. unfold Datatypes.id.
    rewrite Hjson, Hnum.
    rewrite (fresh_recent _ _ Hwin).
    rewrite HL. cbn [href]. rewrite Hhref, Hback. reflexivity. }
  destruct Hrun as [L ->].
  destruct (login_unfold rt callback (Some S) T t2 receiver) as [L' ->].
  cbn [fst snd]. split; [done|]. split; [done|].
  unfold getToken, getItem, or_else, set_href, set_listeners.
  cbn [localStorage sessionStorage].
  rewrite lookup_insert_ne by done. rewrite lookup_insert_ne by done.
  rewrite lookup_insert_eq.
  by rewrite (truthy_of_nonempty _ HT).
Qed.

End Decode.

(** ** Restoration *)

Section Restore.

Context (rt : Runtime).
Context (callback : Listener -> option User -> list CbAction).

(** C3, amended. Restoration reads the cookie copy and then the
    [localStorage] copy and selects the token and the serialized
    subject separately, each from the cookie when the cookie's value is
    non-empty and from [localStorage] otherwise. Nothing is restored
    unless both selected values are non-empty; when they are and the
    subject parses, the subject is restored. A cookie copy with both
    values is selected whole, and with a cookie copy that has neither
    the [localStorage] copy is; a cookie copy with only one of the two
    is completed from [localStorage]. *)
Theorem restoreSession_selects_per_field (s : State)
    (cookieToken cookieUser : option string) :
  getCookie rt "auth_token" s = Ok cookieToken ->
  getCookie rt "auth_user" s = Ok cookieUser ->
  (truthy (selected cookieToken (getItem "auth:token" (localStorage s)))
   && truthy (selected cookieUser (getItem "auth:user" (localStorage s)))
   = false ->
   restoreSession rt callback s = Ok s)
  /\ (forall u,
        truthy (selected cookieToken (getItem "auth:token" (localStorage s)))
        && truthy (selected cookieUser (getItem "auth:user" (localStorage s)))
        = true ->
        JSON_parse rt
          (default ""
             (selected cookieUser (getItem "auth:user" (localStorage s))))
        = Some u ->
        exists s', restoreSession rt callback s = Ok s' /\ user s' = u)
  /\ (forall localToken localUser,
        truthy cookieToken = true -> truthy cookieUser = true ->
        selected cookieToken localToken = cookieToken
        /\ selected cookieUser localUser = cookieUser)
  /\ (forall localToken localUser,
        truthy cookieToken = false -> truthy cookieUser = false ->
        selected cookieToken localToken = localToken
        /\ selected cookieUser localUser = localUser)
  /\ (forall localToken localUser,
        truthy cookieToken = true -> truthy cookieUser = false ->
        selected cookieToken localToken = cookieToken
        /\ selected cookieUser localUser = localUser)
  /\ (forall localToken localUser,
        truthy cookieToken = false -> truthy cookieUser = true ->
        selected cookieToken localToken = localToken
        /\ selected cookieUser localUser = cookieUser).
Proof.
  intros Hct Hcu. unfold selected.
  split; [|split].
  - intros Hsel. unfold restoreSession. rewrite Hct, Hcu.
    by rewrite Hsel.
  - intros u Hsel Hparse. unfold restoreSession. rewrite Hct, Hcu.
    rewrite Hsel, Hparse.
    destruct (truthy (getItem "auth:expiry" _)); eexists; split; done.
  - unfold or_else. split_all; intros lt lu H1 H2; by rewrite ?H1, ?H2.
Qed.

(** The configurable build on a subject that does not parse: provided
    the two cookie reads themselves succeed, construction does not
    throw, and the object it gives is logged out with the persisted
    copies cleared. *)
Lemma restoreSession_corrupt_subject (s : State)
    (cookieToken cookieUser : option string) (now : Z) :
  getCookie rt "auth_token" s = Ok cookieToken ->
  getCookie rt "auth_user" s = Ok cookieUser ->
  truthy (selected cookieToken (getItem "auth:token" (localStorage s))) = true ->
  truthy (selected cookieUser (getItem "auth:user" (localStorage s))) = true ->
  JSON_parse rt
    (default "" (selected cookieUser (getItem "auth:user" (localStorage s))))
    = None ->
  exists s',
    restoreSession rt callback s = Ok s'
    /\ isLoggedIn rt callback now s' = (s', false)
    /\ cleared s'.
Proof.
  intros Hct Hcu Ht Hus Hparse. unfold restoreSession.
  rewrite Hct, Hcu. unfold selected in *. rewrite Ht, Hus.
  cbn [andb]. rewrite Hparse.
  eexists. split; [reflexivity|].
  pose proof (logout_cleared rt callback
                (set_console (console s ++ ["Failed to restore user session:"]) s))
    as Hc.
  split; [|exact Hc].
  destruct Hc as [Hc _]. exact (isLoggedIn_no_user rt callback now _ Hc).
Qed.

(** The minimal variant throws on any non-empty pair whose subject does
    not parse. *)
Lemma minimal_restoreSession_throws (s : State) (token userStr : string) :
  localStorage s !! "auth:token" = Some token -> token <> "" ->
  localStorage s !! "auth:user" = Some userStr -> userStr <> "" ->
  JSON_parse rt userStr = None ->
  Minimal.restoreSession rt s = Throw SyntaxError.
Proof.
  intros Ht Htn Hu Hun Hparse. unfold Minimal.restoreSession, getItem.
  rewrite Ht, Hu, (truthy_of_nonempty _ Htn), (truthy_of_nonempty _ Hun).
  cbn [andb from_option]. unfold Datatypes.id. by rewrite Hparse.
Qed.

End Restore.

(** ** Inbound notifications *)

Section Inbound.

Context (rt : Runtime).
Context (callback : Listener -> option User -> list CbAction).

(** C4, amended. A notification on the broadcast channel, an
    [AUTH_LOGIN] or [AUTH_LOGOUT] window message and a storage event
    that reports the removal of [auth:user] set the subject in memory
    and call the subscribers, and post nothing; every other channel
    message, window message and storage event changes nothing at the
    listeners of [listenForExternalChanges]. An [AUTH_SHARE] envelope
    outside the replay window changes nothing. An [AUTH_SHARE] envelope
    inside the window, with cross-origin messaging enabled, is a full
    [login]: it posts one login notification to the window and, where
    the broadcast channel exists, one to the channel. *)
Theorem inbound_notifications (now : Z) (s : State) :
  (forall u, applied u s (channelListener callback (ChLogin u) s))
  /\ applied None s (channelListener callback ChLogout s)
  /\ (forall u, applied u s (messageListener callback (AUTH_LOGIN u) s))
  /\ applied None s (messageListener callback AUTH_LOGOUT s)
  /\ (forall old, truthy (Some old) = true ->
        applied None s
          (storageListener callback
             (mkStorageEvent (Some "auth:user") (Some old) None) s))
  /\ (forall d, outbox (channelListener callback d s) = outbox s)
  /\ (forall m, outbox (messageListener callback m s) = outbox s)
  /\ (forall e, outbox (storageListener callback e s) = outbox s)
  /\ (forall t, channelListener callback (ChOther t) s = s)
  /\ (forall t, messageListener callback (OtherMessage t) s = s)
  /\ (forall e,
        key e <> Some "auth:user" \/ truthy (newValue e) = true
        \/ truthy (oldValue e) = false ->
        storageListener callback e s = s)
  /\ (forall token u ts, fresh now (Some ts) = false ->
        dispatchMessage rt callback now (AUTH_SHARE token u ts) s = s)
  /\ (forall token u ts, fresh now (Some ts) = true ->
        crossOriginEnabled (config s) = true ->
        crossOriginListener rt callback now (AUTH_SHARE token u ts) s
        = login rt callback u token now s
        /\ outbox (login rt callback u token now s)
           = outbox s ++ WindowPost KLogin u ::
               (if broadcastChannelSupported s
                then [ChannelPost KLogin u] else [])).
Proof.
  split_all.
  - intros u. apply notify_applied.
  - apply notify_applied.
  - intros u. apply notify_applied.
  - apply notify_applied.
  - intros old Hold. unfold storageListener. cbn [key newValue oldValue].
    rewrite Hold. rewrite bool_decide_eq_true_2 by done.
    apply notify_applied.
  - intros [u| |t]; cbn [channelListener];
      [apply (applied_outbox u), notify_applied
      |apply (applied_outbox None), notify_applied | done].
  - intros [tok u ts|u| |t]; cbn [messageListener];
      [done | apply (applied_outbox u), notify_applied
      |apply (applied_outbox None), notify_applied | done].
  - intros e. unfold storageListener.
    destruct (_ && _ && _); [|done].
    apply (applied_outbox None), notify_applied.
  - done.
  - done.
  - intros e [Hk|[Hn|Ho]]; unfold storageListener.
    + by rewrite bool_decide_eq_false_2.
    + by rewrite Hn, andb_false_r.
    + by rewrite Ho, andb_false_r.
  - intros token u ts Hst. unfold dispatchMessage, crossOriginListener.
    rewrite Hst. by destruct (crossOriginEnabled _).
  - intros token u ts Hfr Hen. split.
    + unfold crossOriginListener. by rewrite Hen, Hfr.
    + destruct (login_unfold rt callback u token now s) as [L ->].
      unfold posted. cbn [outbox].
      destruct (broadcastChannelSupported s); [|done].
      by rewrite <- app_assoc.
Qed.

End Inbound.


(** ** The executable runtime reads back what it writes *)

Module BrowserLaws.
Import BrowserRuntime.

(** *** Numbers *)

Lemma decimal_prefix_acc d : forall acc : positive,
  decimal_prefix (NilEmpty.string_of_uint d) (Some (Z.pos acc))
  = Some (Z.pos (Pos.of_uint_acc d acc)).
Proof.
  induction d; intros acc; cbn; try done;
    rewrite <- IHd; do 2 f_equal; lia.
Qed.

Lemma decimal_prefix_zero d :
  decimal_prefix (NilEmpty.string_of_uint d) (Some 0) = Some (Z.of_N (Pos.of_uint d)).
Proof.
  induction d; cbn; try done; try apply (decimal_prefix_acc d).
Qed.

Lemma decimal_prefix_digits d :
  d <> Decimal.Nil ->
  decimal_prefix (NilEmpty.string_of_uint d) None = Some (Z.of_N (Pos.of_uint d)).
Proof.
  destruct d; intros Hd; cbn; try done;
    first [apply (decimal_prefix_zero d) | apply (decimal_prefix_acc d)].
Qed.

Lemma magnitude_digits d :
  d <> Decimal.Nil ->
  magnitude (NilEmpty.string_of_uint d) = Some (Z.of_N (Pos.of_uint d)).
Proof.
  intros Hd. rewrite <- (decimal_prefix_digits d Hd).
  destruct d as [|d|d|d|d|d|d|d|d|d|d]; try done; destruct d; done.
Qed.

Lemma parseInt_digits d :
  d <> Decimal.Nil ->
  parseInt (NilEmpty.string_of_uint d) = Some (Z.of_N (Pos.of_uint d)).
Proof.
  intros Hd. rewrite <- (magnitude_digits d Hd).
  destruct d; done.
Qed.

Lemma number_round_trip z : parseInt (Number_toString z) = Some z.
Proof.
  unfold Number_toString. destruct z as [|p|p]; [done| |].
  - cbn [Z.to_int NilZero.string_of_int].
    pose proof (DecimalPos.Unsigned.to_uint_nonnil p) as Hn.
    assert (Hs : NilZero.string_of_uint (Pos.to_uint p)
                 = NilEmpty.string_of_uint (Pos.to_uint p)).
    { by destruct (Pos.to_uint p). }
    rewrite Hs, parseInt_digits, DecimalPos.Unsigned.of_to by done. done.
  - cbn [Z.to_int NilZero.string_of_int].
    pose proof (DecimalPos.Unsigned.to_uint_nonnil p) as Hn.
    assert (Hs : NilZero.string_of_uint (Pos.to_uint p)
                 = NilEmpty.string_of_uint (Pos.to_uint p)).
    { by destruct (Pos.to_uint p). }
    rewrite Hs. unfold parseInt. cbn [skip_ws is_ws mem_char].
    change (Z.opp <$> magnitude (NilEmpty.string_of_uint (Pos.to_uint p)) = Some (Z.neg p)).
    rewrite magnitude_digits, DecimalPos.Unsigned.of_to by done. done.
Qed.

Lemma number_nonempty z : Number_toString z <> "".
Proof.
  unfold Number_toString. destruct z as [|p|p]; [done| |done].
  cbn [Z.to_int NilZero.string_of_int].
  pose proof (DecimalPos.Unsigned.to_uint_nonnil p) as Hn.
  by destruct (Pos.to_uint p).
Qed.


(** *** JSON *)

Lemma append_assoc (a b c : string) : (a +:+ b) +:+ c = a +:+ (b +:+ c).
Proof.
  induction a as [|x a IH]; [reflexivity|].
  exact (f_equal (String x) IH).
Qed.

Lemma string_body_escape c tail :
  string_body (json_escape c +:+ tail)
  = prod_map (String c) (fun r => r) <$> string_body tail.
Proof.
  destruct c as [[] [] [] [] [] [] [] []]; reflexivity.
Qed.

Lemma string_body_escaped s rest :
  string_body (json_escape_string s +:+ String dquote rest) = Some (s, rest).
Proof.
  induction s as [|c s IH]; [reflexivity|].
  cbn [json_escape_string]. rewrite append_assoc, string_body_escape, IH.
  reflexivity.
Qed.

Lemma quoted_append s rest :
  quoted s +:+ rest = String dquote (json_escape_string s +:+ String dquote rest).
Proof.
  unfold quoted.
  change (String dquote ((json_escape_string s +:+ String dquote "") +:+ rest)
          = String dquote (json_escape_string s +:+ String dquote rest)).
  by rewrite append_assoc.
Qed.

Lemma members_comma fuel k v rest acc :
  members (S fuel) (member k v +:+ String "," rest) acc
  = members fuel rest (acc ++ [(k, v)]).
Proof.
  unfold member. rewrite !append_assoc, quoted_append.
  cbn [members skip_ws is_ws mem_char Ascii.eqb orb dquote Bool.eqb].
  rewrite string_body_escaped.
  change (":" +:+ quoted v +:+ String "," rest)
    with (String ":" (quoted v +:+ String "," rest)).
  rewrite quoted_append.
  cbn [skip_ws is_ws mem_char Ascii.eqb orb dquote Bool.eqb].
  rewrite string_body_escaped. reflexivity.
Qed.

Lemma members_close fuel k v rest acc :
  members (S fuel) (member k v +:+ String "}" rest) acc
  = Some (acc ++ [(k, v)], rest).
Proof.
  unfold member. rewrite !append_assoc, quoted_append.
  cbn [members skip_ws is_ws mem_char Ascii.eqb orb dquote Bool.eqb].
  rewrite string_body_escaped.
  change (":" +:+ quoted v +:+ String "}" rest)
    with (String ":" (quoted v +:+ String "}" rest)).
  rewrite quoted_append.
  cbn [skip_ws is_ws mem_char Ascii.eqb orb dquote Bool.eqb].
  rewrite string_body_escaped. reflexivity.
Qed.

Lemma length_append a b :
  String.length (a +:+ b) = (String.length a + String.length b)%nat.
Proof.
  induction a as [|x a IH]; [reflexivity|].
  change (S (String.length (a +:+ b)) = S (String.length a + String.length b)).
  by rewrite IH.
Qed.

Lemma member_length k v c rest :
  (String.length rest < String.length (member k v +:+ String c rest))%nat.
Proof. rewrite length_append. cbn [String.length]. lia. Qed.

Lemma json_round_trip u :
  JSON_parse (JSON_stringify (Some u)) = Some (Some u).
Proof.
  destruct u as [i n e r]. unfold JSON_stringify. cbn [id name email role].
  destruct r as [r|].
  - change (JSON_parse
              (String "{"
                 (member "id" i +:+ String ","
                    (member "name" n +:+ String ","
                       (member "email" e +:+ String ","
                          (member "role" r +:+ String "}" "")))))
            = Some (Some (mkUser i n e (Some r)))).
    unfold JSON_parse. cbn [skip_ws is_ws mem_char Ascii.eqb orb Bool.eqb].
    pose proof (member_length "id" i ","
                  (member "name" n +:+ String ","
                     (member "email" e +:+ String ","
                        (member "role" r +:+ String "}" "")))) as H1.
    pose proof (member_length "name" n ","
                  (member "email" e +:+ String ","
                     (member "role" r +:+ String "}" ""))) as H2.
    pose proof (member_length "email" e ","
                  (member "role" r +:+ String "}" "")) as H3.
    pose proof (member_length "role" r "}" "") as H4.
    destruct (String.length (member "id" i +:+ _)) as [|[|[|[|fuel]]]];
      [lia | lia | lia | lia |].
    rewrite !members_comma, members_close. reflexivity.
  - change (JSON_parse
              (String "{"
                 (member "id" i +:+ String ","
                    (member "name" n +:+ String ","
                       (member "email" e +:+ String "}" ""))))
            = Some (Some (mkUser i n e None))).
    unfold JSON_parse. cbn [skip_ws is_ws mem_char Ascii.eqb orb Bool.eqb].
    pose proof (member_length "id" i ","
                  (member "name" n +:+ String ","
                     (member "email" e +:+ String "}" ""))) as H1.
    pose proof (member_length "name" n ","
                  (member "email" e +:+ String "}" "")) as H2.
    pose proof (member_length "email" e "}" "") as H3.
    destruct (String.length (member "id" i +:+ _)) as [|[|[|fuel]]];
      [lia | lia | lia |].
    rewrite !members_comma, members_close. reflexivity.
Qed.

Lemma json_nonempty u : JSON_stringify u <> "".
Proof. by destruct u as [[i n e r]|]. Qed.


(** *** URL *)

Lemma mem_char_append c a b :
  mem_char c (a +:+ b) = mem_char c a || mem_char c b.
Proof.
  induction a as [|x a IH]; [reflexivity|].
  change (Ascii.eqb c x || mem_char c (a +:+ b)
          = Ascii.eqb c x || mem_char c a || mem_char c b).
  rewrite IH. by rewrite orb_assoc.
Qed.

Lemma cut_absent c a : mem_char c a = false -> cut c a = (a, None).
Proof.
  induction a as [|x a IH]; [reflexivity|].
  cbn [mem_char cut]. intros H. apply orb_false_iff in H as [Hx Ha].
  rewrite Ascii.eqb_sym, Hx, (IH Ha). reflexivity.
Qed.

Lemma cut_present c a b :
  mem_char c a = false -> cut c (a +:+ String c b) = (a, Some b).
Proof.
  induction a as [|x a IH].
  - intros _. change (cut c (String c b) = ("", Some b)).
    cbn [cut]. by rewrite Ascii.eqb_refl.
  - cbn [mem_char]. intros H. apply orb_false_iff in H as [Hx Ha].
    change (cut c (String x (a +:+ String c b)) = (String x a, Some b)).
    cbn [cut]. rewrite Ascii.eqb_sym, Hx, (IH Ha). reflexivity.
Qed.

Lemma cut_fst_clean c d s :
  mem_char d s = false \/ c = d -> mem_char d (fst (cut c s)) = false.
Proof.
  induction s as [|x s IH]; [reflexivity|].
  intros H. cbn [cut]. destruct (Ascii.eqb x c) eqn:E; [reflexivity|].
  destruct (cut c s) as [a b] eqn:Ec. cbn [fst mem_char] in *.
  destruct H as [H| ->].
  - apply orb_false_iff in H as [Hx Hs]. rewrite Hx. apply IH. by left.
  - rewrite Ascii.eqb_sym, E. apply IH. by right.
Qed.

Lemma form_encode_cons x s :
  form_encode (String x s) = form_encode (String x "") +:+ form_encode s.
Proof.
  cbn [form_encode].
  change (form_encode "") with "".
  rewrite append_assoc. f_equal.
Qed.

Lemma form_encode_clean c s :
  mem_char c "&=#?" = true -> mem_char c (form_encode s) = false.
Proof.
  intros Hc. induction s as [|x s IH]; [reflexivity|].
  rewrite form_encode_cons, mem_char_append, IH, orb_false_r.
  revert Hc. cbn [mem_char]. rewrite orb_false_r.
  destruct (Ascii.eqb_spec c "&") as [->|_];
    [intros _; destruct x as [[] [] [] [] [] [] [] []]; reflexivity|].
  destruct (Ascii.eqb_spec c "=") as [->|_];
    [intros _; destruct x as [[] [] [] [] [] [] [] []]; reflexivity|].
  destruct (Ascii.eqb_spec c "#") as [->|_];
    [intros _; destruct x as [[] [] [] [] [] [] [] []]; reflexivity|].
  destruct (Ascii.eqb_spec c "?") as [->|_];
    [intros _; destruct x as [[] [] [] [] [] [] [] []]; reflexivity|].
  discriminate.
Qed.

Lemma form_decode_piece x tail :
  form_decode (form_encode (String x "") +:+ tail) = String x (form_decode tail).
Proof. destruct x as [[] [] [] [] [] [] [] []]; reflexivity. Qed.

Lemma form_decode_encode s : form_decode (form_encode s) = s.
Proof.
  induction s as [|x s IH]; [reflexivity|].
  by rewrite form_encode_cons, form_decode_piece, IH.
Qed.


(** Splitting at a one-character separator. *)
Lemma split_go_last (c : ascii) p : forall cur,
  mem_char c p = false ->
  split_go (String c "") p 0 cur = [cur +:+ p].
Proof.
  induction p as [|x p IH]; intros cur H.
  - cbn [split_go]. f_equal. induction cur as [|y cur IHc]; [reflexivity|].
    exact (f_equal (String y) IHc).
  - cbn [mem_char] in H. apply orb_false_iff in H as [Hx Hp].
    cbn [split_go String.prefix].
    destruct (ascii_dec c x) as [->|Hne];
      [by rewrite Ascii.eqb_refl in Hx|].
    rewrite (IH _ Hp), append_assoc. reflexivity.
Qed.

Lemma split_go_piece (c : ascii) p rest : forall cur,
  mem_char c p = false ->
  split_go (String c "") (p +:+ String c rest) 0 cur
  = (cur +:+ p) :: split_go (String c "") rest 0 "".
Proof.
  induction p as [|x p IH]; intros cur H.
  - change (split_go (String c "") (String c rest) 0 cur
            = (cur +:+ "") :: split_go (String c "") rest 0 "").
    cbn [split_go String.prefix].
    destruct (ascii_dec c c) as [_|Hne]; [|done].
    destruct rest; cbn [String.length Nat.sub]; f_equal;
      (induction cur as [|y cur IHc]; [reflexivity|];
       exact (f_equal (String y) IHc)).
  - cbn [mem_char] in H. apply orb_false_iff in H as [Hx Hp].
    change (split_go (String c "") (String x (p +:+ String c rest)) 0 cur
            = (cur +:+ String x p) :: split_go (String c "") rest 0 "").
    cbn [split_go String.prefix].
    destruct (ascii_dec c x) as [->|Hne];
      [by rewrite Ascii.eqb_refl in Hx|].
    rewrite (IH _ Hp), append_assoc. reflexivity.
Qed.

Lemma split_concat (c : ascii) (pieces : list string) :
  pieces <> [] ->
  Forall (fun p => mem_char c p = false) pieces ->
  split (String.concat (String c "") pieces) (String c "") = pieces.
Proof.
  unfold split. intros Hne Hall.
  induction Hall as [|p pieces Hp Hall IH]; [done|].
  destruct pieces as [|q pieces].
  - cbn [String.concat]. by rewrite split_go_last.
  - change (String.concat (String c "") (p :: q :: pieces))
      with (p +:+ String c (String.concat (String c "") (q :: pieces))).
    rewrite split_go_piece by done. f_equal. by apply IH.
Qed.

Lemma pair_text_clean c p :
  mem_char c "&#?" = true -> mem_char c (pair_text p) = false.
Proof.
  intros Hc. unfold pair_text.
  assert (Hc' : mem_char c "&=#?" = true).
  { revert Hc. cbn [mem_char]. destruct (Ascii.eqb c "&"); [done|].
    destruct (Ascii.eqb c "="); [done|]. done. }
  rewrite !mem_char_append, !(form_encode_clean c) by done.
  revert Hc. cbn [mem_char].
  destruct (Ascii.eqb_spec c "=") as [->|_]; [done|]. by rewrite !orb_false_r.
Qed.

Lemma query_piece_pair p : query_piece (pair_text p) = Some p.
Proof.
  destruct p as [k v]. unfold query_piece, pair_text. cbn [fst snd].
  change (form_encode k +:+ "=" +:+ form_encode v)
    with (form_encode k +:+ String "=" (form_encode v)).
  rewrite cut_present by (by apply form_encode_clean).
  assert (Hne : String.eqb (form_encode k +:+ String "=" (form_encode v)) ""
                = false).
  { by destruct (form_encode k). }
  rewrite Hne. cbn [from_option]. unfold Datatypes.id.
  by rewrite !form_decode_encode.
Qed.

Lemma omap_query_pieces ps : omap query_piece (List.map pair_text ps) = ps.
Proof.
  induction ps as [|p ps IH]; [reflexivity|].
  change (match query_piece (pair_text p) with
          | Some y => y :: omap query_piece (List.map pair_text ps)
          | None => omap query_piece (List.map pair_text ps)
          end = p :: ps).
  by rewrite query_piece_pair, IH.
Qed.

Lemma parse_query_pairs ps :
  parse_query (String.concat "&" (List.map pair_text ps)) = ps.
Proof.
  unfold parse_query.
  destruct ps as [|p0 ps0]; [reflexivity|].
  rewrite split_concat.
  - apply omap_query_pieces.
  - done.
  - apply Forall_forall. intros x Hx.
    apply list_elem_of_In, in_map_iff in Hx as (p & <- & _).
    by apply pair_text_clean.
Qed.

Lemma query_clean c ps :
  mem_char c "#?" = true ->
  mem_char c (String.concat "&" (List.map pair_text ps)) = false.
Proof.
  intros Hc.
  assert (Hc' : mem_char c "&#?" = true).
  { revert Hc. cbn [mem_char]. by destruct (Ascii.eqb c "&"). }
  assert (Hamp : Ascii.eqb c "&" = false).
  { revert Hc. cbn [mem_char].
    destruct (Ascii.eqb_spec c "&") as [->|_]; done. }
  induction ps as [|p ps IH]; [reflexivity|].
  destruct ps as [|q ps].
  - by apply pair_text_clean.
  - change (String.concat "&" (List.map pair_text (p :: q :: ps)))
      with (pair_text p +:+ String "&"
              (String.concat "&" (List.map pair_text (q :: ps)))).
    rewrite mem_char_append, (pair_text_clean c p Hc').
    cbn [mem_char orb]. by rewrite Hamp, IH.
Qed.

(** What [URL_parse] gives is well formed. *)
Lemma URL_parse_shape s u :
  URL_parse s = Some u ->
  mem_char "#" (url_base u) = false
  /\ mem_char "?" (url_base u) = false
  /\ (2 <=? length (split (url_base u) "://"))%nat = true
  /\ (url_hash u = "" \/ exists x, url_hash u = String "#" x).
Proof.
  unfold URL_parse.
  pose proof (cut_fst_clean "#" "#" s (or_intror eq_refl)) as Hh.
  destruct (cut "#" s) as [rest h]. cbn [fst] in Hh.
  pose proof (cut_fst_clean "?" "#" rest (or_introl Hh)) as Hb.
  pose proof (cut_fst_clean "?" "?" rest (or_intror eq_refl)) as Hq.
  destruct (cut "?" rest) as [base q]. cbn [fst] in Hb, Hq.
  destruct (2 <=? length (split base "://"))%nat eqn:E; [|done].
  intros [= <-]. cbn [url_base url_hash].
  split_all; try done.
  destruct h as [x|]; [right; by exists x | by left].
Qed.

Lemma append_nil_r a : a +:+ "" = a.
Proof.
  induction a as [|x a IH]; [reflexivity|]. exact (f_equal (String x) IH).
Qed.

Lemma url_round_trip s u ps :
  URL_parse s = Some u ->
  URL_parse (URL_toString (mkURL (url_base u) ps (url_hash u)))
  = Some (mkURL (url_base u) ps (url_hash u)).
Proof.
  intros Hs. destruct (URL_parse_shape s u Hs) as (Hb1 & Hb2 & Hb3 & Hh).
  unfold URL_toString. cbn [url_base searchParams url_hash].
  set (base := url_base u) in *. set (hash := url_hash u) in *.
  clearbody base hash. clear Hs u s.
  destruct ps as [|p ps].
  - (* no query *)
    change (URL_parse (base +:+ "" +:+ hash) = Some (mkURL base [] hash)).
    unfold URL_parse.
    destruct Hh as [->|[x ->]].
    + rewrite !append_nil_r, (cut_absent _ _ Hb1), (cut_absent _ _ Hb2), Hb3.
      reflexivity.
    + change (base +:+ "" +:+ String "#" x) with (base +:+ String "#" x).
      rewrite (cut_present _ _ _ Hb1), (cut_absent _ _ Hb2), Hb3.
      reflexivity.
  - set (ps' := p :: ps).
    set (Q := String.concat "&" (List.map pair_text ps')).
    change (URL_parse (base +:+ String "?" Q +:+ hash)
            = Some (mkURL base ps' hash)).
    assert (HM : mem_char "#" (base +:+ String "?" Q) = false).
    { rewrite mem_char_append, Hb1.
      cbn [mem_char orb Ascii.eqb Bool.eqb]. by apply query_clean. }
    assert (Hcut : cut "?" (base +:+ String "?" Q) = (base, Some Q))
      by (by apply cut_present).
    assert (Hq : parse_query Q = ps') by apply parse_query_pairs.
    unfold URL_parse.
    destruct Hh as [->|[x ->]].
    + change (String "?" Q +:+ "") with (String "?" (Q +:+ "")).
      rewrite append_nil_r, (cut_absent _ _ HM), Hcut, Hb3.
      cbn [from_option]. unfold Datatypes.id. rewrite Hq. reflexivity.
    + rewrite <- append_assoc, (cut_present _ _ _ HM), Hcut, Hb3.
      cbn [from_option]. unfold Datatypes.id. rewrite Hq. reflexivity.
Qed.

(** *** Percent-encoding *)

Lemma encodeURIComponent_cons x s :
  encodeURIComponent (String x s)
  = encodeURIComponent (String x "") +:+ encodeURIComponent s.
Proof.
  cbn [encodeURIComponent].
  change (encodeURIComponent "") with "".
  rewrite append_assoc. f_equal.
Qed.

Lemma decodeURIComponent_piece x tail :
  decodeURIComponent (encodeURIComponent (String x "") +:+ tail)
  = String x <$> decodeURIComponent tail.
Proof. destruct x as [[] [] [] [] [] [] [] []]; reflexivity. Qed.

Lemma uri_component_round_trip s :
  decodeURIComponent (encodeURIComponent s) = Some s.
Proof.
  induction s as [|x s IH]; [reflexivity|].
  by rewrite encodeURIComponent_cons, decodeURIComponent_piece, IH.
Qed.

End BrowserLaws.

(** ** Hand-off round trip *)

(** C6. Hand-off round trip, on the executable runtime and for every
    behaviour of the subscribers. A sender with an active, non-expired
    session of subject [S] and (non-empty) token [T] encodes to a URL
    for a target that is a URL; a context whose location is the
    produced URL and whose clock is within the replay window of the
    sender's decodes it: [processAuthFromUrl()] returns true, and
    afterwards [getUser()] is [S] and [getToken()] is [T]. *)
Theorem handoff_round_trip
    (callback : Listener -> option User -> list CbAction)
    (S : User) (T targetUrl : string) (url : URL) (t1 t2 : Z)
    (sender receiver : State) :
  user sender = Some S ->
  expired t1 sender = false ->
  getToken sender = Some T ->
  T <> "" ->
  URL_parse browser targetUrl = Some url ->
  href receiver = URL_toString browser (with_auth browser url T S t1) ->
  t2 - t1 < 5 * 60 * 1000 ->
  generateAuthUrl browser callback targetUrl t1 sender
  = (sender, Ok (URL_toString browser (with_auth browser url T S t1)))
  /\ snd (processAuthFromUrl browser callback t2 receiver) = true
  /\ getUser (fst (processAuthFromUrl browser callback t2 receiver)) = Some S
  /\ getToken (fst (processAuthFromUrl browser callback t2 receiver)) = Some T.
Proof.
  intros Hu He Ht HT Hurl Hhref Hwin.
  apply (handoff_round_trip_lawful browser callback S T targetUrl url t1 t2
           sender receiver Hu He Ht HT Hurl).
  - exact (BrowserLaws.url_round_trip targetUrl url _ Hurl).
  - apply BrowserLaws.json_round_trip.
  - apply BrowserLaws.json_nonempty.
  - apply BrowserLaws.number_round_trip.
  - apply BrowserLaws.number_nonempty.
  - exact Hhref.
  - exact Hwin.
Qed.

(** ** The statements on concrete inputs *)

Example alice_json_round_trip :
  JSON_parse browser (JSON_stringify browser (Some alice)) = Some (Some alice).
Proof. run. Qed.

Example cookie_read_back :
  getCookie browser "auth_user" logged_in
  = Ok (Some (JSON_stringify browser (Some alice))).
Proof. run. Qed.

(** A cookie name that occurs twice splits the string in three, and the
    read gives [null]. *)
Example cookie_twice_is_null :
  getCookie browser "auth_token"
    (set_cookieJar [("auth_token", "a"); ("auth_token", "b")] logged_out)
  = Ok None.
Proof. run. Qed.

(** Subscribers 1, 2 and 3 are registered; 1 unsubscribes itself and 2
    during the pass and 2 subscribes 7. All three are called once, 7 is
    not, and the list afterwards is 3, 7. *)
Example restless_pass :
  calls (login browser restless (Some alice) "tok-1" 1000
           (register [1; 2; 3]%nat logged_out))
  = [(1%nat, Some alice); (2%nat, Some alice); (3%nat, Some alice)]
  /\ listeners (login browser restless (Some alice) "tok-1" 1000
                  (register [1; 2; 3]%nat logged_out))
     = [3; 7]%nat.
Proof. split; run. Qed.

Lemma login_then_expiry_witness :
  tokenExpiry (config logged_out) = 60000
  /\ 1000 + 60000 <> 0
  /\ snd (isLoggedIn browser quiet (1000 + 60000 + 1)
            (login browser quiet (Some alice) "tok-1" 1000 logged_out)) = false
  /\ getUser (fst (isLoggedIn browser quiet (1000 + 60000 + 1)
                     (login browser quiet (Some alice) "tok-1" 1000 logged_out)))
     = None.
Proof.
  split; [reflexivity|]. split; [lia|].
  destruct (login_then_expiry browser quiet alice "tok-1" 1000 60000 logged_out)
    as (_ & H1 & _ & H2); [reflexivity | lia |].
  split; [exact H1 | exact H2].
Defined.

(** C2, on the minimal variant. [localStorage] holds a token and a
    subject text that is not JSON. The constructor of [src/index.ts]
    throws the [SyntaxError] of [JSON.parse] to its caller; the
    configurable build, on the same browser, catches it and gives a
    logged-out object with the persisted copies cleared. *)
Theorem minimal_constructor_throws_on_corrupt_subject :
  getItem "auth:token" (b_localStorage corrupt_browser) = Some "tok-1"
  /\ getItem "auth:user" (b_localStorage corrupt_browser) = Some "{oops"
  /\ JSON_parse browser "{oops" = None
  /\ Minimal.constructor browser corrupt_browser = Throw SyntaxError
  /\ exists s,
       constructor browser quiet one_minute corrupt_browser = Ok s
       /\ isLoggedIn browser quiet 0 s = (s, false)
       /\ cleared s.
Proof.
  split; [run|]. split; [run|]. split; [run|]. split.
  - unfold Minimal.constructor.
    apply (minimal_restoreSession_throws browser _ "tok-1" "{oops"); run.
  - unfold constructor.
    apply (restoreSession_corrupt_subject browser quiet
             (blank one_minute corrupt_browser) None None 0); run.
Qed.

(** The cookie copy has a token and no subject, [localStorage] a subject
    and no token: no source has a complete pair, and the subject is
    restored all the same. *)
Lemma restore_mixes_sources :
  ~ restores_first_complete_pair browser quiet one_minute mixed_browser.
Proof.
  intros H.
  assert (E : exists s,
             constructor browser quiet one_minute mixed_browser = Ok s
             /\ user s = Some alice).
  { vm_compute. eexists. split; reflexivity. }
  destruct E as (s & E & Hu).
  specialize (H s (Some "abc") None E).
  assert (H' : user s = None) by (apply H; run).
  rewrite Hu in H'. discriminate H'.
Qed.

Lemma restoreSession_selects_per_field_witness :
  getCookie browser "auth_token" (blank one_minute mixed_browser) = Ok (Some "abc")
  /\ getCookie browser "auth_user" (blank one_minute mixed_browser) = Ok None
  /\ getItem "auth:token" (localStorage (blank one_minute mixed_browser)) = None
  /\ exists s',
       restoreSession browser quiet (blank one_minute mixed_browser) = Ok s'
       /\ user s' = Some alice.
Proof.
  split; [run|]. split; [run|]. split; [run|].
  destruct (restoreSession_selects_per_field browser quiet
              (blank one_minute mixed_browser) (Some "abc") None)
    as (_ & H & _); [run | run |].
  apply H; run.
Defined.

(** An [AUTH_SHARE] envelope a hundred milliseconds old reaches a
    logged-out context: two messages leave it. *)
Lemma share_envelope_is_rebroadcast :
  ~ no_rebroadcast browser quiet 1000 (AUTH_SHARE "tok-1" (Some alice) 900)
      logged_out.
Proof. unfold no_rebroadcast. run. Qed.

Lemma inbound_notifications_witness :
  fresh 400000 (Some 900) = false
  /\ dispatchMessage browser quiet 400000 (AUTH_SHARE "tok-1" (Some alice) 900)
       logged_out = logged_out
  /\ fresh 1000 (Some 900) = true
  /\ outbox (login browser quiet (Some alice) "tok-1" 1000 logged_out)
     = outbox logged_out ++ WindowPost KLogin (Some alice) ::
         (if broadcastChannelSupported logged_out
          then [ChannelPost KLogin (Some alice)] else []).
Proof.
  destruct (inbound_notifications browser quiet 400000 logged_out)
    as (_ & _ & _ & _ & _ & _ & _ & _ & _ & _ & _ & Hstale & _).
  destruct (inbound_notifications browser quiet 1000 logged_out)
    as (_ & _ & _ & _ & _ & _ & _ & _ & _ & _ & _ & _ & Hfresh).
  split; [run|]. split; [apply Hstale; run|]. split; [run|].
  apply (Hfresh "tok-1" (Some alice) 900); run.
Defined.

Lemma stale_handoff_is_rejected_witness :
  URL_parse browser (href arriving)
  = Some (with_auth browser landing "tok-1" alice 2000)
  /\ 5 * 60 * 1000 < 302001 - 2000
  /\ snd (processAuthFromUrl browser quiet 302001 arriving) = false
  /\ set_console (console arriving)
       (fst (processAuthFromUrl browser quiet 302001 arriving)) = arriving.
Proof.
  split; [run|]. split; [run|].
  destruct (stale_handoff_is_rejected browser quiet 302001 2000 "2000"
              (with_auth browser landing "tok-1" alice 2000) arriving)
    as (H1 & H2 & _); [run | run | run | run |].
  split; [exact H1 | exact H2].
Defined.

Lemma handoff_round_trip_witness :
  user logged_in = Some alice
  /\ getToken logged_in = Some "tok-1"
  /\ 3000 - 2000 < 5 * 60 * 1000
  /\ snd (processAuthFromUrl browser quiet 3000 arriving) = true
  /\ getUser (fst (processAuthFromUrl browser quiet 3000 arriving)) = Some alice
  /\ getToken (fst (processAuthFromUrl browser quiet 3000 arriving))
     = Some "tok-1".
Proof.
  split; [run|]. split; [run|]. split; [run|].
  destruct (handoff_round_trip quiet alice "tok-1"
              "https://other.example.com/landing" landing 2000 3000
              logged_in arriving)
    as (_ & H); [run | run | run | run | run | run | run |].
  exact H.
Defined.



(** * The session across its operations *)

(** ** Cookies as text *)

Section CookieText.

Import BrowserRuntime BrowserLaws.

Lemma lacks_append c a b : lacks c (a +:+ b) <-> lacks c a /\ lacks c b.
Proof.
  unfold lacks. rewrite mem_char_append. apply orb_false_iff.
Qed.

Lemma document_cookie_text jar :
  jar <> [] -> "; " +:+ document_cookie jar = jar_text jar.
Proof.
  unfold document_cookie.
  induction jar as [|p jar IH]; [done|]. intros _.
  destruct jar as [|q jar].
  - cbn [List.map String.concat jar_text]. fold (cookie_text p).
    by rewrite append_nil_r.
  - change (String.concat "; " (List.map (fun p => fst p +:+ "=" +:+ snd p) (p :: q :: jar)))
      with (cookie_text p +:+ "; " +:+
            String.concat "; " (List.map (fun p => fst p +:+ "=" +:+ snd p) (q :: jar))).
    change (jar_text (p :: q :: jar))
      with ("; " +:+ cookie_text p +:+ jar_text (q :: jar)).
    rewrite <- IH by done. reflexivity.
Qed.

(** Splitting at a separator that starts with [c]: a stretch without
    [c] goes to the piece being collected. *)
Lemma split_go_stretch c sep' p : forall rest cur,
  lacks c p ->
  split_go (String c sep') (p +:+ rest) 0 cur
  = split_go (String c sep') rest 0 (cur +:+ p).
Proof.
  induction p as [|x p IH]; intros rest cur H.
  - by rewrite append_nil_r.
  - unfold lacks in H. cbn [mem_char] in H.
    apply orb_false_iff in H as [Hx Hp].
    change (String x p +:+ rest) with (String x (p +:+ rest)).
    cbn [split_go String.prefix].
    destruct (ascii_dec c x) as [->|Hne];
      [by rewrite Ascii.eqb_refl in Hx|].
    rewrite (IH _ _ Hp), append_assoc. reflexivity.
Qed.

Lemma split_go_skip sep a : forall b cur,
  split_go sep (a +:+ b) (String.length a) cur = split_go sep b 0 cur.
Proof.
  induction a as [|x a IH]; intros b cur; [reflexivity|].
  change (String x a +:+ b) with (String x (a +:+ b)).
  cbn [split_go String.length]. apply IH.
Qed.

Lemma prefix_empty w : String.prefix "" w = true.
Proof. by destruct w. Qed.

Lemma prefix_append a b : String.prefix a (a +:+ b) = true.
Proof.
  induction a as [|x a IH]; [apply prefix_empty|].
  change (String x a +:+ b) with (String x (a +:+ b)).
  cbn [String.prefix]. destruct (ascii_dec x x); [exact IH | done].
Qed.

(** At a cookie boundary the separator matches exactly when the cookie
    has the name. *)
Lemma prefix_name n : forall m w,
  lacks "=" n -> lacks "=" m ->
  String.prefix (n +:+ "=") (m +:+ String "=" w) = String.eqb n m.
Proof.
  induction n as [|x n IH]; intros m w Hn Hm.
  - destruct m as [|y m].
    { change (String.prefix (String "=" "") (String "=" w) = true).
      cbn [String.prefix]. destruct (ascii_dec "=" "="); [|done].
      apply prefix_empty. }
    unfold lacks in Hm. cbn [mem_char] in Hm.
    apply orb_false_iff in Hm as [Hy _].
    change (String.prefix (String "=" "") (String y (m +:+ String "=" w))
            = String.eqb "" (String y m)).
    cbn [String.prefix String.eqb].
    destruct (ascii_dec "=" y) as [<-|_]; [by rewrite Ascii.eqb_refl in Hy|done].
  - unfold lacks in Hn. cbn [mem_char] in Hn.
    apply orb_false_iff in Hn as [Hx Hn].
    destruct m as [|y m].
    + change (String.prefix (String x (n +:+ "=")) (String "=" w)
              = String.eqb (String x n) "").
      cbn [String.prefix String.eqb].
      destruct (ascii_dec x "=") as [->|_]; [by rewrite Ascii.eqb_refl in Hx|done].
    + unfold lacks in Hm. cbn [mem_char] in Hm.
      apply orb_false_iff in Hm as [Hy Hm].
      change (String.prefix (String x (n +:+ "=")) (String y (m +:+ String "=" w))
              = String.eqb (String x n) (String y m)).
      cbn [String.prefix String.eqb].
      destruct (ascii_dec x y) as [->|Hne].
      * rewrite Ascii.eqb_refl. by apply IH.
      * apply Ascii.eqb_neq in Hne. by rewrite Hne.
Qed.

Lemma split_go_match sep c s' cur :
  String.prefix sep (String c s') = true ->
  split_go sep (String c s') 0 cur
  = cur :: split_go sep s' (String.length sep - 1) "".
Proof. intros H. cbn [split_go]. by rewrite H. Qed.

Lemma split_go_nomatch sep c s' cur :
  String.prefix sep (String c s') = false ->
  split_go sep (String c s') 0 cur = split_go sep s' 0 (cur +:+ String c "").
Proof. intros H. cbn [split_go]. by rewrite H. Qed.

Lemma prefix_cons c a b :
  String.prefix (String c a) (String c b) = String.prefix a b.
Proof. cbn [String.prefix]. by destruct (ascii_dec c c). Qed.

Lemma cookie_sep_cons n :
  cookie_sep n = String ";" (String " " (n +:+ "=")).
Proof. reflexivity. Qed.

Lemma split_cookie_match n v rest cur :
  lacks ";" v ->
  split_go (cookie_sep n) (jar_text ((n, v) :: rest)) 0 cur
  = cur :: split_go (cookie_sep n) (jar_text rest) 0 v.
Proof.
  intros Hv.
  change (jar_text ((n, v) :: rest))
    with (String ";" (String " " ((n +:+ "=" +:+ v) +:+ jar_text rest))).
  assert (E : (n +:+ "=" +:+ v) +:+ jar_text rest
              = (n +:+ "=") +:+ (v +:+ jar_text rest)).
  { by rewrite !append_assoc. }
  rewrite E, split_go_match.
  - f_equal.
    change (String.length (cookie_sep n) - 1)%nat
      with (String.length (String " " (n +:+ "="))).
    change (String " " ((n +:+ "=") +:+ v +:+ jar_text rest))
      with (String " " (n +:+ "=") +:+ (v +:+ jar_text rest)).
    rewrite split_go_skip. rewrite cookie_sep_cons.
    by rewrite split_go_stretch.
  - rewrite cookie_sep_cons, !prefix_cons. apply prefix_append.
Qed.

Lemma split_cookie_other n m v rest cur :
  clean_name n -> clean_name m -> lacks ";" v -> m <> n ->
  split_go (cookie_sep n) (jar_text ((m, v) :: rest)) 0 cur
  = split_go (cookie_sep n) (jar_text rest) 0
      (cur +:+ "; " +:+ cookie_text (m, v)).
Proof.
  intros [Hn1 Hn2] [Hm1 Hm2] Hv Hne.
  change (jar_text ((m, v) :: rest))
    with (String ";" (String " " ((m +:+ "=" +:+ v) +:+ jar_text rest))).
  assert (E : (m +:+ "=" +:+ v) +:+ jar_text rest
              = m +:+ String "=" (v +:+ jar_text rest)).
  { by rewrite !append_assoc. }
  rewrite split_go_nomatch.
  - change (String " " ((m +:+ "=" +:+ v) +:+ jar_text rest))
      with ((" " +:+ cookie_text (m, v)) +:+ jar_text rest).
    rewrite cookie_sep_cons, split_go_stretch.
    + by rewrite !append_assoc.
    + unfold cookie_text. cbn [fst snd].
      apply lacks_append. split; [done|].
      apply lacks_append. split; [done|]. by apply lacks_append.
  - rewrite cookie_sep_cons, !prefix_cons, E, prefix_name by done.
    apply String.eqb_neq. congruence.
Qed.

Lemma split_jar_none n jar : forall cur,
  clean_name n -> clean_jar jar -> named n jar = [] ->
  split_go (cookie_sep n) (jar_text jar) 0 cur = [cur +:+ jar_text jar].
Proof.
  induction jar as [|[m v] jar IH]; intros cur Hn Hj Hnone.
  - cbn [jar_text split_go]. by rewrite append_nil_r.
  - apply Forall_cons in Hj as [[Hm Hv] Hj]. cbn [fst snd] in Hm, Hv.
    unfold named in Hnone. cbn [List.filter fst] in Hnone.
    destruct (String.eqb m n) eqn:E; [done|].
    apply String.eqb_neq in E.
    rewrite split_cookie_other, IH by done.
    cbn [jar_text]. by rewrite !append_assoc.
Qed.

Lemma split_jar_length n jar : forall cur,
  clean_name n -> clean_jar jar ->
  length (split_go (cookie_sep n) (jar_text jar) 0 cur)
  = S (length (named n jar)).
Proof.
  induction jar as [|[m v] jar IH]; intros cur Hn Hj; [reflexivity|].
  apply Forall_cons in Hj as [[Hm Hv] Hj]. cbn [fst snd] in Hm, Hv.
  unfold named. cbn [List.filter fst].
  destruct (String.eqb m n) eqn:E.
  - apply String.eqb_eq in E as ->.
    rewrite split_cookie_match by done. cbn [length]. by rewrite IH.
  - apply String.eqb_neq in E. rewrite split_cookie_other by done.
    by apply IH.
Qed.

Lemma split_jar_one n p jar : forall cur,
  clean_name n -> clean_jar jar -> named n jar = [p] ->
  exists a post,
    split_go (cookie_sep n) (jar_text jar) 0 cur = [a; snd p +:+ jar_text post]
    /\ lacks ";" (snd p).
Proof.
  induction jar as [|[m v] jar IH]; intros cur Hn Hj Hone; [done|].
  apply Forall_cons in Hj as [[Hm Hv] Hj]. cbn [fst snd] in Hm, Hv.
  unfold named in Hone. cbn [List.filter fst] in Hone.
  destruct (String.eqb m n) eqn:E.
  - apply String.eqb_eq in E as ->. injection Hone as <- Hnone.
    exists cur, jar. rewrite split_cookie_match by done.
    by rewrite (split_jar_none n jar v).
  - apply String.eqb_neq in E. rewrite split_cookie_other by done.
    by apply IH.
Qed.

Lemma jar_text_head post :
  jar_text post = "" \/ exists t, jar_text post = String ";" t.
Proof. destruct post as [|q post]; [by left | right; by eexists]. Qed.

Lemma head_split_value v post :
  lacks ";" v ->
  head (split (v +:+ jar_text post) ";") = Some v.
Proof.
  intros Hv. unfold split.
  destruct (jar_text_head post) as [->|[t ->]].
  - by rewrite append_nil_r, split_go_last.
  - by rewrite split_go_piece.
Qed.

End CookieText.

Section CookieRead.

Context (rt : Runtime).

(** On a jar as the browser keeps it, [getCookie] is a lookup that wants
    the name to occur exactly once. *)
Lemma getCookie_clean n s :
  clean_name n -> clean_jar (cookieJar s) ->
  getCookie rt n s =
  match named n (cookieJar s) with
  | [p] =>
      match decodeURIComponent rt (snd p) with
      | Some v => Ok (Some v)
      | None => Throw URIError
      end
  | _ => Ok None
  end.
Proof.
  intros Hn Hj. unfold getCookie. fold (cookie_sep n).
  destruct (cookieJar s) as [|q jar] eqn:Ej.
  { destruct n; reflexivity. }
  rewrite <- Ej in *. assert (Hne : cookieJar s <> []) by (by rewrite Ej).
  rewrite (document_cookie_text _ Hne). unfold split.
  rewrite (split_jar_length n _ "" Hn Hj).
  destruct (named n (cookieJar s)) as [|p [|p' ps]] eqn:En; [done| |done].
  destruct (split_jar_one n p _ "" Hn Hj En) as (a & post & -> & Hv).
  cbn [Nat.eqb length last]. cbn [mbind option_bind].
  fold (split (snd p +:+ jar_text post) ";").
  rewrite (head_split_value _ _ Hv).
  assert (E : default "" (or_else (Some (snd p)) (Some "")) = snd p).
  { unfold or_else. cbn [truthy].
    destruct (String.eqb_spec (snd p) "") as [->|_]; reflexivity. }
  by rewrite E.
Qed.

End CookieRead.

Section Jar.



Lemma named_put_same n v jar :
  at_most_one n jar -> named n (jar_put n v jar) = [(n, v)].
Proof.
  unfold at_most_one, named.
  induction jar as [|p jar IH]; intros H.
  - cbn [jar_put List.filter fst]. by rewrite String.eqb_refl.
  - cbn [jar_put]. cbn [List.filter] in H.
    destruct (String.eqb (fst p) n) eqn:E.
    + cbn [List.filter fst]. rewrite String.eqb_refl. f_equal.
      cbn [length] in H. destruct (List.filter _ jar); [done|].
      cbn [length] in H. lia.
    + cbn [List.filter]. rewrite E. by apply IH.
Qed.

Lemma named_put_other n m v jar :
  m <> n -> named m (jar_put n v jar) = named m jar.
Proof.
  intros Hne. unfold named.
  assert (Enm : String.eqb n m = false) by (apply String.eqb_neq; congruence).
  induction jar as [|p jar IH].
  - cbn [jar_put List.filter fst]. by rewrite Enm.
  - cbn [jar_put]. destruct (String.eqb (fst p) n) eqn:E.
    + apply String.eqb_eq in E. cbn [List.filter fst].
      by rewrite E, Enm.
    + cbn [List.filter]. by rewrite IH.
Qed.


Lemma clean_put n v jar :
  clean_name n -> lacks ";" v -> clean_jar jar -> clean_jar (jar_put n v jar).
Proof.
  unfold clean_jar. intros Hn Hv H.
  induction H as [|p jar Hp H IH]; cbn [jar_put].
  - apply Forall_cons. split; [split; assumption | apply Forall_nil; exact I].
  - destruct (String.eqb (fst p) n); apply Forall_cons; split;
      solve [assumption | split; assumption].
Qed.


Lemma encode_lacks s : lacks ";" (BrowserRuntime.encodeURIComponent s).
Proof.
  unfold lacks. induction s as [|x s IH]; [reflexivity|].
  rewrite BrowserLaws.encodeURIComponent_cons, BrowserLaws.mem_char_append, IH.
  rewrite orb_false_r.
  destruct x as [[] [] [] [] [] [] [] []]; reflexivity.
Qed.

End Jar.

Section CookieWrite.

Context (callback : Listener -> option User -> list CbAction).


End CookieWrite.

(** ** The session from login to logout *)

Section Lifecycle.

Context (rt : Runtime).
Context (callback : Listener -> option User -> list CbAction).

Lemma posted_one k u s :
  posted k u s
  = outbox s ++ WindowPost k u ::
      (if broadcastChannelSupported s then [ChannelPost k u] else []).
Proof.
  unfold posted. destruct (broadcastChannelSupported s); [|done].
  by rewrite <- app_assoc.
Qed.

Lemma expired_before now s :
  (forall e, tokenExpiryTime s = Some e -> now <= e) -> expired now s = false.
Proof.
  intros H. unfold expired. destruct (tokenExpiryTime s) as [e|]; [|done].
  apply andb_false_iff. right. apply Z.ltb_ge. cbn [from_option].
  by apply H.
Qed.

Lemma expired_after now e s :
  tokenExpiryTime s = Some e -> e <> 0 -> e < now -> expired now s = true.
Proof.
  intros He H0 Hlt. unfold expired. rewrite He. cbn [truthy_num from_option].
  apply andb_true_iff. split.
  - by apply negb_true_iff, Z.eqb_neq.
  - by apply Z.ltb_lt.
Qed.

(** The fields of the state [login] gives. *)
Lemma login_fields u token now s :
  user (login rt callback u token now s) = u
  /\ tokenExpiryTime (login rt callback u token now s)
     = Some (now + tokenExpiry (config s))
  /\ localStorage (login rt callback u token now s)
     = <["auth:expiry" := Number_toString rt (now + tokenExpiry (config s))]>
         (<["auth:user" := JSON_stringify rt u]>
            (<["auth:token" := token]> (localStorage s)))
  /\ sessionStorage (login rt callback u token now s)
     = <["auth:user" := JSON_stringify rt u]>
         (<["auth:token" := token]> (sessionStorage s))
  /\ cookieJar (login rt callback u token now s) = jar_after_login rt u token s
  /\ outbox (login rt callback u token now s) = posted KLogin u s
  /\ config (login rt callback u token now s) = config s
  /\ href (login rt callback u token now s) = href s.
Proof.
  destruct (login_unfold rt callback u token now s) as [L ->].
  by split_all.
Qed.

Lemma login_getToken u token now s :
  token <> "" -> getToken (login rt callback u token now s) = Some token.
Proof.
  intros Hne. destruct (login_fields u token now s) as (_ & _ & Hl & _).
  unfold getToken, getItem, or_else. rewrite Hl.
  rewrite lookup_insert_ne by done. rewrite lookup_insert_ne by done.
  rewrite lookup_insert_eq. by rewrite (truthy_of_nonempty _ Hne).
Qed.

(** X1. [login(user, token)] from any state: [getUser()] is the new
    subject; [isLoggedIn()] is true, and changes nothing, at every
    instant up to the deadline [now + tokenExpiry], so also right away;
    a non-empty token is what [getToken()] returns; the deadline is
    written to [localStorage]; one login notification goes to the
    window and, only where [BroadcastChannel] exists, one to the
    channel; the tab's [sessionStorage] is written in both cases. *)
Theorem login_postcondition (u : User) (token : string) (now now' : Z)
    (s : State) :
  now' <= now + tokenExpiry (config s) ->
  getUser (login rt callback (Some u) token now s) = Some u
  /\ isLoggedIn rt callback now' (login rt callback (Some u) token now s)
     = (login rt callback (Some u) token now s, true)
  /\ (token <> "" ->
      getToken (login rt callback (Some u) token now s) = Some token)
  /\ localStorage (login rt callback (Some u) token now s) !! "auth:expiry"
     = Some (Number_toString rt (now + tokenExpiry (config s)))
  /\ sessionStorage (login rt callback (Some u) token now s) !! "auth:token"
     = Some token
  /\ outbox (login rt callback (Some u) token now s)
     = outbox s ++ WindowPost KLogin (Some u) ::
         (if broadcastChannelSupported s
          then [ChannelPost KLogin (Some u)] else []).
Proof.
  intros Hle.
  destruct (login_fields (Some u) token now s)
    as (Hu & He & Hl & Hs & _ & Ho & _).
  split_all.
  - exact Hu.
  - apply isLoggedIn_active; [rewrite Hu; eauto|].
    apply expired_before. intros e. rewrite He. intros [= <-]. exact Hle.
  - apply login_getToken.
  - rewrite Hl. by rewrite lookup_insert_eq.
  - rewrite Hs. rewrite lookup_insert_ne by done. by rewrite lookup_insert_eq.
  - rewrite Ho. apply posted_one.
Qed.


(** X3. [isLoggedIn()] as a read that may write: a true answer leaves
    the state as it was; the state changes only when a subject is in
    memory and its deadline has passed, and the change is [logout()];
    after a false answer there is no subject in memory, and every later
    call, at any instant, answers false and changes nothing, so an
    expiry posts its logout once. *)
Theorem isLoggedIn_false_is_stable (now : Z) (s : State) :
  (snd (isLoggedIn rt callback now s) = true ->
   fst (isLoggedIn rt callback now s) = s)
  /\ (fst (isLoggedIn rt callback now s) = s
      \/ (is_Some (user s) /\ expired now s = true
          /\ fst (isLoggedIn rt callback now s) = logout rt callback s))
  /\ (snd (isLoggedIn rt callback now s) = false ->
      getUser (fst (isLoggedIn rt callback now s)) = None
      /\ forall now',
           isLoggedIn rt callback now' (fst (isLoggedIn rt callback now s))
           = (fst (isLoggedIn rt callback now s), false)).
Proof.
  pose proof (logout_cleared rt callback s) as [Hc _].
  destruct (user s) as [u|] eqn:Hu; [destruct (expired now s) eqn:He|].
  - rewrite (isLoggedIn_expired rt callback now s) by (rewrite ?Hu; eauto).
    cbn [fst snd]. split_all; [done | right; eauto |].
    intros _. split; [exact Hc|]. intros now'.
    exact (isLoggedIn_no_user rt callback now' _ Hc).
  - rewrite (isLoggedIn_active rt callback now s) by (rewrite ?Hu; eauto).
    cbn [fst snd]. split_all; [done | by left | done].
  - rewrite (isLoggedIn_no_user rt callback now s Hu).
    cbn [fst snd]. split_all; [done | by left |].
    intros _. split; [exact Hu|]. intros now'.
    exact (isLoggedIn_no_user rt callback now' _ Hu).
Qed.


End Lifecycle.

Section Notifications.

Context (rt : Runtime).
Context (callback : Listener -> option User -> list CbAction).

Lemma applied_same_stores u s s' : applied u s s' -> same_stores s s'.
Proof. intros [L ->]. by destruct s. Qed.

Lemma same_stores_refl s : same_stores s s.
Proof. by repeat split. Qed.

Lemma same_stores_getToken s s' : same_stores s s' -> getToken s' = getToken s.
Proof. intros (Hl & Hs & _). unfold getToken. by rewrite Hl, Hs. Qed.

Lemma channelListener_stores d s :
  same_stores s (channelListener callback d s).
Proof.
  destruct d as [u| |t]; cbn [channelListener];
    [eapply applied_same_stores, notify_applied
    |eapply applied_same_stores, notify_applied
    |apply same_stores_refl].
Qed.

Lemma messageListener_stores m s :
  same_stores s (messageListener callback m s).
Proof.
  destruct m as [tok u ts|u| |t]; cbn [messageListener];
    [apply same_stores_refl
    |eapply applied_same_stores, notify_applied
    |eapply applied_same_stores, notify_applied
    |apply same_stores_refl].
Qed.

Lemma storageListener_stores e s :
  same_stores s (storageListener callback e s).
Proof.
  unfold storageListener. destruct (_ && _ && _).
  - eapply applied_same_stores, notify_applied.
  - apply same_stores_refl.
Qed.

(** X13. A callback whose handle was called is not called by the next
    [login] or [logout]: the pass calls what is left of the list, each
    once and in order, and none of these calls is to the removed
    callback, also when another subscriber subscribes it again during
    the pass. *)
Theorem unsubscribed_is_not_called (l : Listener) (u : User)
    (token : string) (now : Z) (s0 s : State) :
  calls (login rt callback (Some u) token now (snd (subscribe l s0) s))
  = calls s ++ map (fun x => (x, Some u))
                 (filter (fun x => x <> l) (listeners s))
  /\ calls (logout rt callback (snd (subscribe l s0) s))
     = calls s ++ map (fun x => (x, None))
                    (filter (fun x => x <> l) (listeners s))
  /\ (forall v : option User, (l, v) ∉ map (fun x => (x, v))
                            (filter (fun x => x <> l) (listeners s))).
Proof.
  cbn [subscribe snd]. split_all.
  - destruct (login_unfold rt callback (Some u) token now (unsubscribe l s))
      as [L ->]. reflexivity.
  - destruct (logout_unfold rt callback (unsubscribe l s)) as [L ->].
    reflexivity.
  - intros v Hin. apply list_elem_of_fmap in Hin as (x & [= <-] & Hx).
    apply list_elem_of_filter in Hx. by destruct Hx.
Qed.

(** X16. An inbound notification never touches what is persisted: after
    any broadcast-channel message, window message or storage event at
    the listeners of [listenForExternalChanges], both storages, the
    cookie jar, the deadline in memory, the outbox and the location are
    what they were, and so is the answer of [getToken()]. In
    particular, after [login] with a non-empty token followed by a
    remote logout notification, [getUser()] is [null] while
    [getToken()] still returns the token and the old deadline is still
    in memory. *)
Theorem inbound_never_touches_storage (u : User) (token : string) (now : Z)
    (s : State) :
  (forall d, same_stores s (channelListener callback d s))
  /\ (forall m, same_stores s (messageListener callback m s))
  /\ (forall e, same_stores s (storageListener callback e s))
  /\ (forall d, getToken (channelListener callback d s) = getToken s)
  /\ (forall m, getToken (messageListener callback m s) = getToken s)
  /\ (forall e, getToken (storageListener callback e s) = getToken s)
  /\ (token <> "" ->
      getUser (messageListener callback AUTH_LOGOUT
                 (login rt callback (Some u) token now s)) = None
      /\ getToken (messageListener callback AUTH_LOGOUT
                     (login rt callback (Some u) token now s)) = Some token
      /\ tokenExpiryTime (messageListener callback AUTH_LOGOUT
                            (login rt callback (Some u) token now s))
         = Some (now + tokenExpiry (config s))).
Proof.
  split_all.
  - intros d. apply channelListener_stores.
  - intros m. apply messageListener_stores.
  - intros e. apply storageListener_stores.
  - intros d. apply same_stores_getToken, channelListener_stores.
  - intros m. apply same_stores_getToken, messageListener_stores.
  - intros e. apply same_stores_getToken, storageListener_stores.
  - intros Hne.
    destruct (login_fields rt callback (Some u) token now s)
      as (_ & He & _).
    pose proof (login_getToken rt callback (Some u) token now s Hne) as Ht.
    remember (login rt callback (Some u) token now s) as s1 eqn:E. clear E.
    pose proof (messageListener_stores AUTH_LOGOUT s1) as Hst.
    split_all.
    + cbn [messageListener].
      destruct (notify_applied callback None s1) as [L ->]. reflexivity.
    + by rewrite (same_stores_getToken _ _ Hst).
    + destruct Hst as (_ & _ & _ & -> & _). exact He.
Qed.

End Notifications.

Section Composition.

Context (rt : Runtime).
Context (callback : Listener -> option User -> list CbAction).

Lemma logout_fields s :
  user (logout rt callback s) = None
  /\ outbox (logout rt callback s) = posted KLogout None s
  /\ calls (logout rt callback s)
     = calls s ++ map (fun l => (l, None)) (listeners s).
Proof.
  destruct (logout_unfold rt callback s) as [L ->]. by split_all.
Qed.

(** X12. A remote login notification does not renew the deadline: it
    sets the subject and nothing else. When the deadline in memory has
    passed, the subject it delivered is reported by [getUser()], and
    the next [isLoggedIn()] answers false, clears the session and posts
    a logout. The same holds on the broadcast channel and on window
    messaging. *)
Theorem remote_login_keeps_stale_deadline (u : User) (e now : Z) (s : State) :
  tokenExpiryTime s = Some e ->
  e <> 0 ->
  e < now ->
  forall s',
    s' = channelListener callback (ChLogin (Some u)) s
    \/ s' = messageListener callback (AUTH_LOGIN (Some u)) s ->
    getUser s' = Some u
    /\ tokenExpiryTime s' = Some e
    /\ snd (isLoggedIn rt callback now s') = false
    /\ getUser (fst (isLoggedIn rt callback now s')) = None
    /\ outbox (fst (isLoggedIn rt callback now s'))
       = outbox s ++ WindowPost KLogout None ::
           (if broadcastChannelSupported s
            then [ChannelPost KLogout None] else []).
Proof.
  intros He H0 Hlt s' Hs'.
  assert (Ha : applied (Some u) s s').
  { destruct Hs' as [-> | ->]; apply notify_applied. }
  clear Hs'. destruct Ha as [L ->].
  set (s1 := set_listeners L _).
  assert (Hu : user s1 = Some u) by (by destruct s).
  assert (He1 : tokenExpiryTime s1 = Some e) by (by destruct s).
  assert (Ho : outbox s1 = outbox s) by (by destruct s).
  assert (Hb : broadcastChannelSupported s1 = broadcastChannelSupported s)
    by (by destruct s).
  clearbody s1.
  rewrite (isLoggedIn_expired rt callback now s1)
    by (rewrite ?Hu; eauto using expired_after).
  destruct (logout_fields s1) as (Hlu & Hlo & _).
  cbn [fst snd]. split_all; try done.
  by rewrite Hlo, posted_one, Ho, Hb.
Qed.

(** X17. A hand-off asked of an expired session: [generateAuthUrl] and
    [shareAuthWithApp] throw their "must be logged in" error, and the
    state they leave is the one [logout()] gives: the session is
    cleared and a logout is posted, nothing is sent to the target. *)
Theorem handoff_on_expired_session_logs_out (u : User) (now : Z) (s : State)
    (targetUrl targetOrigin : string) (targetWindow : nat) :
  user s = Some u ->
  expired now s = true ->
  generateAuthUrl rt callback targetUrl now s
  = (logout rt callback s,
     Throw (Error "User must be logged in to generate auth URL"))
  /\ shareAuthWithApp rt callback targetOrigin targetWindow now s
     = (logout rt callback s,
        Throw (Error "User must be logged in to share auth"))
  /\ cleared (logout rt callback s)
  /\ outbox (logout rt callback s)
     = outbox s ++ WindowPost KLogout None ::
         (if broadcastChannelSupported s then [ChannelPost KLogout None] else []).
Proof.
  intros Hu He.
  assert (Hin : isLoggedIn rt callback now s = (logout rt callback s, false)).
  { apply isLoggedIn_expired; [rewrite Hu; eauto | done]. }
  split_all.
  - unfold generateAuthUrl. by rewrite Hin.
  - unfold shareAuthWithApp. by rewrite Hin.
  - apply logout_cleared.
  - destruct (logout_fields s) as (_ & -> & _). apply posted_one.
Qed.

(** X11. Hand-off through [postMessage]. A sender with an active,
    non-expired session of subject [S] and non-empty token [T] posts to
    the target window, for the target origin, one [AUTH_SHARE] envelope
    with [T], [S] and the current instant, and changes nothing else. A
    context with cross-origin messaging enabled that receives this
    envelope within the replay window is logged in as [S] with token
    [T] and a deadline of its own; one with cross-origin messaging
    disabled is left as it was. *)
Theorem shareAuthWithApp_round_trip (S : User) (T targetOrigin : string)
    (targetWindow : nat) (t1 t2 : Z) (sender receiver : State) :
  user sender = Some S ->
  expired t1 sender = false ->
  getToken sender = Some T ->
  T <> "" ->
  t2 - t1 < 5 * 60 * 1000 ->
  shareAuthWithApp rt callback targetOrigin targetWindow t1 sender
  = (set_outbox
       (outbox sender ++ [TargetPost targetWindow targetOrigin T S t1]) sender,
     Ok tt)
  /\ (crossOriginEnabled (config receiver) = true ->
      getUser (dispatchMessage rt callback t2 (AUTH_SHARE T (Some S) t1) receiver)
      = Some S
      /\ getToken (dispatchMessage rt callback t2 (AUTH_SHARE T (Some S) t1)
                     receiver) = Some T
      /\ tokenExpiryTime
           (dispatchMessage rt callback t2 (AUTH_SHARE T (Some S) t1) receiver)
         = Some (t2 + tokenExpiry (config receiver)))
  /\ (crossOriginEnabled (config receiver) = false ->
      dispatchMessage rt callback t2 (AUTH_SHARE T (Some S) t1) receiver
      = receiver).
Proof.
  intros Hu He Ht HT Hwin. split_all.
  - unfold shareAuthWithApp.
    rewrite (isLoggedIn_active rt callback t1 sender) by (rewrite ?Hu; eauto).
    cbn [negb]. unfold getUser.
    by rewrite Hu, Ht, (truthy_of_nonempty _ HT).
  - intros Hen.
    assert (E : dispatchMessage rt callback t2 (AUTH_SHARE T (Some S) t1) receiver
                = login rt callback (Some S) T t2 receiver).
    { unfold dispatchMessage, crossOriginListener.
      by rewrite Hen, (fresh_recent t2 t1 Hwin). }
    rewrite E.
    destruct (login_fields rt callback (Some S) T t2 receiver)
      as (Hu' & He' & _).
    split_all; [exact Hu' | by apply login_getToken | exact He'].
  - intros Hdis. unfold dispatchMessage, crossOriginListener.
    by rewrite Hdis.
Qed.

End Composition.

(** ** The hand-off in the location *)

Lemma sp_get_delete_eq k ps : sp_get k (sp_delete k ps) = None.
Proof.
  unfold sp_get, sp_delete.
  induction ps as [|p ps IH]; [done|].
  cbn [List.filter]. destruct (String.eqb (fst p) k) eqn:E; cbn [negb]; [done|].
  cbn [List.find]. by rewrite E.
Qed.

Lemma sp_get_delete k k' ps :
  sp_get k (sp_delete k' ps) = if String.eqb k k' then None else sp_get k ps.
Proof.
  destruct (String.eqb k k') eqn:E.
  - apply String.eqb_eq in E. subst. apply sp_get_delete_eq.
  - apply String.eqb_neq in E. by apply sp_get_delete_ne.
Qed.

Lemma cleaned_params url k :
  sp_get k (searchParams (cleaned url))
  = if auth_param k then None else sp_get k (searchParams url).
Proof.
  unfold cleaned, auth_param. cbn [searchParams].
  rewrite !sp_get_delete.
  by destruct (String.eqb k "auth_token"), (String.eqb k "auth_user"),
             (String.eqb k "auth_timestamp").
Qed.

Section Location.

Context (rt : Runtime).
Context (callback : Listener -> option User -> list CbAction).

Lemma processAuthFromUrl_accepted T U TS u t now l s :
  URL_parse rt (href s) = Some l ->
  sp_get "auth_token" (searchParams l) = Some T -> T <> "" ->
  sp_get "auth_user" (searchParams l) = Some U -> U <> "" ->
  sp_get "auth_timestamp" (searchParams l) = Some TS -> TS <> "" ->
  JSON_parse rt U = Some u ->
  parseInt rt TS = Some t ->
  processAuthFromUrl rt callback now s
  = if fresh now (Some t)
    then (set_href (URL_toString rt (cleaned l)) (login rt callback u T now s),
          true)
    else (s, false).
Proof.
  intros Hl HT HT0 HU HU0 HTS HTS0 Hj Hp.
  unfold processAuthFromUrl.
  rewrite Hl, HT, HU, HTS.
  rewrite !truthy_of_nonempty by done.
  cbn [andb default from_option]. unfold Datatypes.id.
  rewrite Hj, Hp.
  destruct (fresh now (Some t)); [|done].
  destruct (login_fields rt callback u T now s)
    as (_ & _ & _ & _ & _ & _ & _ & Hh).
  by rewrite Hh, Hl.
Qed.

Lemma processAuthFromUrl_no_params now s :
  (forall l, URL_parse rt (href s) = Some l ->
     truthy (sp_get "auth_token" (searchParams l))
     && truthy (sp_get "auth_user" (searchParams l))
     && truthy (sp_get "auth_timestamp" (searchParams l)) = false) ->
  processAuthFromUrl rt callback now s = (s, false).
Proof.
  intros H. unfold processAuthFromUrl.
  destruct (URL_parse rt (href s)) as [l|] eqn:Hl.
  - by rewrite (H l eq_refl).
  - done.
Qed.

(** X8. [processAuthFromUrl()] on a location that carries the three
    parameters, non-empty, with a subject text that parses to [u] and a
    timestamp text that reads as the number [t]: the hand-off is
    accepted exactly when [Date.now() - t] is below five minutes. A
    timestamp exactly five minutes old is refused and one in the future
    is accepted. On acceptance the subject is [u] (also when it is
    [null]), the token is the one of the location and the deadline is
    counted from the receiver's clock; on refusal nothing changes. *)
Theorem processAuthFromUrl_accepts_iff_fresh (T U TS : string)
    (u : option User) (t now : Z) (l : URL) (s : State) :
  URL_parse rt (href s) = Some l ->
  sp_get "auth_token" (searchParams l) = Some T -> T <> "" ->
  sp_get "auth_user" (searchParams l) = Some U -> U <> "" ->
  sp_get "auth_timestamp" (searchParams l) = Some TS -> TS <> "" ->
  JSON_parse rt U = Some u ->
  parseInt rt TS = Some t ->
  snd (processAuthFromUrl rt callback now s)
  = bool_decide (now - t < 5 * 60 * 1000)
  /\ (now - t < 5 * 60 * 1000 ->
      getUser (fst (processAuthFromUrl rt callback now s)) = u
      /\ getToken (fst (processAuthFromUrl rt callback now s)) = Some T
      /\ tokenExpiryTime (fst (processAuthFromUrl rt callback now s))
         = Some (now + tokenExpiry (config s))
      /\ href (fst (processAuthFromUrl rt callback now s))
         = URL_toString rt (cleaned l))
  /\ (5 * 60 * 1000 <= now - t ->
      fst (processAuthFromUrl rt callback now s) = s).
Proof.
  intros Hl HT HT0 HU HU0 HTS HTS0 Hj Hp.
  rewrite (processAuthFromUrl_accepted T U TS u t now l s) by done.
  split_all.
  - unfold fresh. destruct (Z.ltb_spec (now - t) (5 * 60 * 1000)).
    + by rewrite bool_decide_eq_true_2.
    + by rewrite bool_decide_eq_false_2 by lia.
  - intros Hf. rewrite (fresh_recent _ _ Hf). cbn [fst].
    destruct (login_fields rt callback u T now s) as (Hu & He & _).
    pose proof (login_getToken rt callback u T now s HT0) as Ht.
    remember (login rt callback u T now s) as s1 eqn:E. clear E.
    split_all.
    + by destruct s1.
    + rewrite <- Ht. by destruct s1.
    + rewrite <- He. by destruct s1.
    + by destruct s1.
  - intros Hf. by rewrite (fresh_stale _ _ Hf).
Qed.


End Location.

Section Cleaning.

Context (callback : Listener -> option User -> list CbAction).

(** X10. After an accepted hand-off the location no longer carries the
    three hand-off parameters, and every other parameter reads as
    before; so a second [processAuthFromUrl()], whenever it runs,
    returns false and changes nothing. On the executable runtime. *)
Theorem processAuthFromUrl_cleans_location (T U TS : string)
    (u : option User) (t now : Z) (l : URL) (s : State) :
  URL_parse browser (href s) = Some l ->
  sp_get "auth_token" (searchParams l) = Some T -> T <> "" ->
  sp_get "auth_user" (searchParams l) = Some U -> U <> "" ->
  sp_get "auth_timestamp" (searchParams l) = Some TS -> TS <> "" ->
  JSON_parse browser U = Some u ->
  parseInt browser TS = Some t ->
  now - t < 5 * 60 * 1000 ->
  forall s1, s1 = fst (processAuthFromUrl browser callback now s) ->
    URL_parse browser (href s1) = Some (cleaned l)
    /\ (forall k,
          sp_get k (searchParams (cleaned l))
          = if auth_param k then None else sp_get k (searchParams l))
    /\ (forall now', processAuthFromUrl browser callback now' s1 = (s1, false)).
Proof.
  intros Hl HT HT0 HU HU0 HTS HTS0 Hj Hp Hf s1 ->.
  rewrite (processAuthFromUrl_accepted browser callback T U TS u t now l s)
    by done.
  rewrite (fresh_recent _ _ Hf). cbn [fst].
  remember (login browser callback u T now s) as s0 eqn:E. clear E.
  assert (Hh : URL_parse browser
                 (href (set_href (URL_toString browser (cleaned l)) s0))
               = Some (cleaned l)).
  { replace (href (set_href (URL_toString browser (cleaned l)) s0))
      with (URL_toString browser (cleaned l)) by (by destruct s0).
    exact (BrowserLaws.url_round_trip _ _ _ Hl). }
  split_all.
  - exact Hh.
  - intros k. apply cleaned_params.
  - intros now'. apply processAuthFromUrl_no_params.
    intros l' Hl'. rewrite Hh in Hl'. injection Hl' as <-.
    by rewrite (cleaned_params l "auth_token").
Qed.

End Cleaning.

(** ** Construction and restoration *)

Section JarAfter.

Context (rt : Runtime).

Lemma jar_after_login_positive u token s :
  0 < tokenExpiry (config s) ->
  jar_after_login rt u token s
  = jar_put "auth_user" (encodeURIComponent rt (JSON_stringify rt u))
      (jar_put "auth_token" (encodeURIComponent rt token) (cookieJar s)).
Proof.
  intros H. unfold jar_after_login, setCookie, document_cookie_assign.
  cbn [cookieJar set_cookieJar ck_maxAge ck_name ck_value config].
  by rewrite (proj2 (Z.leb_gt _ 0) H).
Qed.


Lemma jar_after_logout_removes s :
  jar_after_logout rt s
  = jar_remove "auth_user" (jar_remove "auth_token" (cookieJar s)).
Proof. reflexivity. Qed.

Lemma clean_auth_token : clean_name "auth_token".
Proof. by split. Qed.

Lemma clean_auth_user : clean_name "auth_user".
Proof. by split. Qed.


End JarAfter.

Section Reload.

Context (callback : Listener -> option User -> list CbAction).

(** What a new context reads from the two cookies a login wrote. *)
Lemma getCookie_after_login (u : option User) token s s2 :
  clean_jar (cookieJar s) ->
  at_most_one "auth_token" (cookieJar s) ->
  at_most_one "auth_user" (cookieJar s) ->
  0 < tokenExpiry (config s) ->
  cookieJar s2 = jar_after_login browser u token s ->
  getCookie browser "auth_token" s2 = Ok (Some token)
  /\ getCookie browser "auth_user" s2
     = Ok (Some (JSON_stringify browser u)).
Proof.
  intros Hj Ht Hu Hpos E.
  rewrite (jar_after_login_positive browser u token s Hpos) in E.
  assert (Hc : clean_jar (cookieJar s2)).
  { rewrite E.
    apply clean_put; [apply clean_auth_user | apply encode_lacks|].
    apply clean_put; [apply clean_auth_token | apply encode_lacks | done]. }
  split.
  - rewrite (getCookie_clean browser _ s2 clean_auth_token Hc), E.
    rewrite named_put_other by done. rewrite named_put_same by done.
    cbn [snd]. change (decodeURIComponent browser)
      with BrowserRuntime.decodeURIComponent.
    change (encodeURIComponent browser) with BrowserRuntime.encodeURIComponent.
    by rewrite BrowserLaws.uri_component_round_trip.
  - rewrite (getCookie_clean browser _ s2 clean_auth_user Hc), E.
    rewrite named_put_same
      by (unfold at_most_one; by rewrite named_put_other).
    cbn [snd]. change (decodeURIComponent browser)
      with BrowserRuntime.decodeURIComponent.
    change (encodeURIComponent browser) with BrowserRuntime.encodeURIComponent.
    by rewrite BrowserLaws.uri_component_round_trip.
Qed.

Lemma stringify_truthy (u : option User) :
  truthy (Some (JSON_stringify browser u)) = true.
Proof. apply truthy_of_nonempty, BrowserLaws.json_nonempty. Qed.


End Reload.

Section CookieOnly.

Context (callback : Listener -> option User -> list CbAction).

(** X6. A context that shares the cookies of a login and not its
    [localStorage], as another application of the cookie domain does,
    restores the subject from the cookies and, finding no
    ["auth:expiry"], no deadline: [isLoggedIn()] is then true at every
    instant, however long after the login, while [getToken()] reads the
    storages only and is absent when they hold no token. *)
Theorem cookie_only_restore_has_no_deadline (u : User) (token : string)
    (t0 : Z) (s : State) (cfg : AuthConfig) (b : Browser) :
  token <> "" ->
  0 < tokenExpiry (config s) ->
  clean_jar (cookieJar s) ->
  at_most_one "auth_token" (cookieJar s) ->
  at_most_one "auth_user" (cookieJar s) ->
  b_cookieJar b = cookieJar (login browser callback (Some u) token t0 s) ->
  b_localStorage b !! "auth:expiry" = None ->
  constructor browser callback cfg b = Ok (set_user (Some u) (blank cfg b))
  /\ (forall now,
        isLoggedIn browser callback now (set_user (Some u) (blank cfg b))
        = (set_user (Some u) (blank cfg b), true))
  /\ (b_localStorage b !! "auth:token" = None ->
      b_sessionStorage b !! "auth:token" = None ->
      getToken (set_user (Some u) (blank cfg b)) = None).
Proof.
  intros Hne Hpos Hj Ht Hu Hc Hexp.
  destruct (login_fields browser callback (Some u) token t0 s)
    as (_ & _ & _ & _ & Ec & _).
  rewrite Ec in Hc. clear Ec.
  split_all.
  - unfold constructor, restoreSession.
    destruct (getCookie_after_login (Some u) token s (blank cfg b)
                Hj Ht Hu Hpos) as [-> ->]; [exact Hc|].
    unfold or_else. rewrite (truthy_of_nonempty _ Hne), stringify_truthy.
    rewrite (truthy_of_nonempty _ Hne), stringify_truthy.
    cbn [andb default from_option]. unfold Datatypes.id.
    change (JSON_parse browser (JSON_stringify browser (Some u)))
      with (BrowserRuntime.JSON_parse (BrowserRuntime.JSON_stringify (Some u))).
    rewrite BrowserLaws.json_round_trip.
    replace (getItem "auth:expiry"
               (localStorage (set_user (Some u) (blank cfg b))))
      with (@None string) by (symmetry; exact Hexp).
    reflexivity.
  - intros now. by apply isLoggedIn_active.
  - intros Hl Hs. unfold getToken, getItem, or_else.
    cbn [localStorage sessionStorage set_user blank].
    by rewrite Hl, Hs.
Qed.

End CookieOnly.

Section AfterLogout.

Context (rt : Runtime).
Context (callback : Listener -> option User -> list CbAction).


(** X18. The two cookie reads of [restoreSession] stand outside its
    [try]: when a cookie of the session holds a value that
    [decodeURIComponent] refuses, the constructor throws [URIError],
    whatever [localStorage] holds. For the subject cookie this asks
    that the token cookie, if there is one, decodes. *)
Theorem constructor_throws_on_malformed_cookie (cfg : AuthConfig)
    (b : Browser) (v : string) :
  clean_jar (b_cookieJar b) ->
  decodeURIComponent rt v = None ->
  (named "auth_token" (b_cookieJar b) = [("auth_token", v)] ->
   constructor rt callback cfg b = Throw URIError)
  /\ (named "auth_user" (b_cookieJar b) = [("auth_user", v)] ->
      (forall p, named "auth_token" (b_cookieJar b) = [p] ->
         is_Some (decodeURIComponent rt (snd p))) ->
      constructor rt callback cfg b = Throw URIError).
Proof.
  intros Hj Hd. unfold constructor, restoreSession.
  assert (Hc : clean_jar (cookieJar (blank cfg b))) by exact Hj.
  rewrite (getCookie_clean rt _ _ clean_auth_token Hc).
  rewrite (getCookie_clean rt _ _ clean_auth_user Hc).
  change (cookieJar (blank cfg b)) with (b_cookieJar b).
  split.
  - intros ->. cbn [snd]. by rewrite Hd.
  - intros -> Hok. cbn [snd]. rewrite Hd.
    destruct (named "auth_token" (b_cookieJar b)) as [|p [|p' ps]];
      [done| |done].
    destruct (Hok p eq_refl) as [w ->]. done.
Qed.

(** X19. A subject text that does not parse logs the other contexts
    out: when the cookie reads succeed and the selected token and
    subject text are non-empty but the text is not JSON, the
    constructor writes one line to the console and runs [logout()],
    which posts a logout notification to the window and, where
    [BroadcastChannel] exists, to the channel. *)
Theorem constructor_corrupt_subject_posts_logout (cfg : AuthConfig)
    (b : Browser) (cookieToken cookieUser : option string) :
  getCookie rt "auth_token" (blank cfg b) = Ok cookieToken ->
  getCookie rt "auth_user" (blank cfg b) = Ok cookieUser ->
  truthy (or_else cookieToken (b_localStorage b !! "auth:token")) = true ->
  truthy (or_else cookieUser (b_localStorage b !! "auth:user")) = true ->
  JSON_parse rt
    (default "" (or_else cookieUser (b_localStorage b !! "auth:user"))) = None ->
  exists s,
    constructor rt callback cfg b = Ok s
    /\ outbox s
       = WindowPost KLogout None ::
           (if b_broadcastChannelSupported b
            then [ChannelPost KLogout None] else [])
    /\ console s
       = "Failed to restore user session:" ::
           (if b_broadcastChannelSupported b
            then [] else ["BroadcastChannel not supported"])
    /\ calls s = []
    /\ cleared s.
Proof.
  intros Hct Hcu Ht Hu Hp. unfold constructor, restoreSession.
  rewrite Hct, Hcu. unfold getItem.
  change (localStorage (blank cfg b)) with (b_localStorage b).
  rewrite Ht, Hu. cbn [andb]. rewrite Hp.
  eexists. split; [reflexivity|].
  set (s0 := set_console _ (blank cfg b)).
  pose proof (logout_cleared rt callback s0) as Hcl.
  destruct (logout_unfold rt callback s0) as [L E].
  rewrite E in *. cbn [outbox console calls].
  split_all; [| | |exact Hcl].
  - unfold posted. subst s0.
    cbn [broadcastChannelSupported outbox set_console blank].
    by destruct (b_broadcastChannelSupported b).
  - unfold warned. subst s0.
    cbn [broadcastChannelSupported console set_console blank].
    by destruct (b_broadcastChannelSupported b).
  - by subst s0.
Qed.

End AfterLogout.

Section MinimalLifecycle.

Context (callback : Listener -> option User -> list CbAction).

Lemma minimal_login_fields rt u token s :
  user (Minimal.login rt callback u token s) = u
  /\ localStorage (Minimal.login rt callback u token s)
     = <["auth:user" := JSON_stringify rt u]>
         (<["auth:token" := token]> (localStorage s))
  /\ sessionStorage (Minimal.login rt callback u token s) = sessionStorage s
  /\ cookieJar (Minimal.login rt callback u token s) = cookieJar s
  /\ tokenExpiryTime (Minimal.login rt callback u token s) = tokenExpiryTime s.
Proof.
  unfold Minimal.login.
  match goal with
  | |- context [notify callback ?x] =>
      destruct (notify_spec callback x) as [L ->]
  end.
  unfold broadcast.
  destruct s as [? ? ? ? ? ? ? ? [] ? ? ?]; by split_all.
Qed.

Lemma minimal_logout_fields s :
  user (Minimal.logout callback s) = None
  /\ localStorage (Minimal.logout callback s)
     = delete "auth:user" (delete "auth:token" (localStorage s))
  /\ sessionStorage (Minimal.logout callback s) = sessionStorage s
  /\ cookieJar (Minimal.logout callback s) = cookieJar s.
Proof.
  unfold Minimal.logout.
  match goal with
  | |- context [notify callback ?x] =>
      destruct (notify_spec callback x) as [L ->]
  end.
  unfold broadcast.
  destruct s as [? ? ? ? ? ? ? ? [] ? ? ?]; by split_all.
Qed.

(** X14. The minimal variant of [src/index.ts]. After [login(u, token)]
    [isLoggedIn()] is true and [getUser()] is [u]; after [logout()]
    [isLoggedIn()] is false. Only [localStorage] is written: the
    cookies and [sessionStorage] stay as they were. A new context that
    finds the [localStorage] of the login restores [u] when the token
    is not empty and nothing when it is empty; one that finds the
    [localStorage] of the logout restores nothing. *)
Theorem minimal_session_lifecycle (u : User) (token : string) (s : State)
    (b : Browser) :
  Minimal.isLoggedIn (Minimal.login browser callback (Some u) token s) = true
  /\ Minimal.getUser (Minimal.login browser callback (Some u) token s) = Some u
  /\ Minimal.isLoggedIn
       (Minimal.logout callback
          (Minimal.login browser callback (Some u) token s)) = false
  /\ cookieJar (Minimal.login browser callback (Some u) token s) = cookieJar s
  /\ sessionStorage (Minimal.login browser callback (Some u) token s)
     = sessionStorage s
  /\ (b_localStorage b
      = localStorage (Minimal.login browser callback (Some u) token s) ->
      Minimal.constructor browser b
      = Ok (if String.eqb token "" then blank (mkAuthConfig None None None None None) b
            else set_user (Some u)
                   (blank (mkAuthConfig None None None None None) b)))
  /\ (b_localStorage b
      = localStorage
          (Minimal.logout callback
             (Minimal.login browser callback (Some u) token s)) ->
      Minimal.constructor browser b
      = Ok (blank (mkAuthConfig None None None None None) b)).
Proof.
  destruct (minimal_login_fields browser (Some u) token s)
    as (Hu & Hl & Hs & Hc & _).
  destruct (minimal_logout_fields
              (Minimal.login browser callback (Some u) token s))
    as (Hu' & Hl' & _).
  rewrite Hl in Hl'.
  remember (Minimal.login browser callback (Some u) token s) as s1 eqn:E1.
  remember (Minimal.logout callback s1) as s2 eqn:E2.
  clear E1 E2.
  split_all.
  - unfold Minimal.isLoggedIn. rewrite Hu. by apply bool_decide_eq_true_2.
  - exact Hu.
  - unfold Minimal.isLoggedIn. rewrite Hu'.
    apply bool_decide_eq_false_2. by intros [? ?].
  - exact Hc.
  - exact Hs.
  - intros Hb. unfold Minimal.constructor, Minimal.restoreSession, getItem.
    change (localStorage (blank (mkAuthConfig None None None None None) b))
      with (b_localStorage b).
    rewrite Hb, Hl. rewrite lookup_insert_ne by done.
    rewrite !lookup_insert_eq. cbn [truthy].
    destruct (String.eqb token "") eqn:Et; cbn [negb andb]; [done|].
    pose proof (stringify_truthy (Some u)) as Hsu. cbn [truthy] in Hsu.
    rewrite Hsu.
    cbn [default from_option]. unfold Datatypes.id.
    change (JSON_parse browser (JSON_stringify browser (Some u)))
      with (BrowserRuntime.JSON_parse (BrowserRuntime.JSON_stringify (Some u))).
    by rewrite BrowserLaws.json_round_trip.
  - intros Hb. unfold Minimal.constructor, Minimal.restoreSession, getItem.
    change (localStorage (blank (mkAuthConfig None None None None None) b))
      with (b_localStorage b).
    rewrite Hb, Hl'. rewrite lookup_delete_ne by done.
    by rewrite lookup_delete_eq.
Qed.

End MinimalLifecycle.

(** ** On concrete inputs *)

Lemma login_postcondition_witness :
  61000 <= 1000 + tokenExpiry (config logged_out)
  /\ isLoggedIn browser quiet 61000 logged_in = (logged_in, true)
  /\ getToken logged_in = Some "tok-1".
Proof.
  split; [run|].
  destruct (login_postcondition browser quiet alice "tok-1" 1000 61000
              logged_out) as (_ & H1 & H2 & _); [run|].
  split; [exact H1 | apply H2; run].
Defined.




Lemma cookie_only_restore_has_no_deadline_witness :
  0 < tokenExpiry (config themed)
  /\ b_localStorage sibling !! "auth:expiry" = None
  /\ constructor browser quiet one_minute sibling
     = Ok (set_user (Some alice) (blank one_minute sibling))
  /\ isLoggedIn browser quiet 1000000000000
       (set_user (Some alice) (blank one_minute sibling))
     = (set_user (Some alice) (blank one_minute sibling), true)
  /\ getToken (set_user (Some alice) (blank one_minute sibling)) = None.
Proof.
  split; [run|]. split; [run|].
  destruct (cookie_only_restore_has_no_deadline quiet alice "tok-1" 1000
              themed one_minute sibling)
    as (H1 & H2 & H3);
    [discriminate | run | clean | vm_compute; lia | vm_compute; lia
    | reflexivity | run |].
  split; [exact H1|]. split; [apply H2|]. apply H3; run.
Defined.


Lemma processAuthFromUrl_accepts_iff_fresh_witness :
  URL_parse browser (href arriving)
  = Some (with_auth browser landing "tok-1" alice 2000)
  /\ snd (processAuthFromUrl browser quiet 301999 arriving) = true
  /\ snd (processAuthFromUrl browser quiet 302000 arriving) = false
  /\ snd (processAuthFromUrl browser quiet 0 arriving) = true
  /\ getUser (fst (processAuthFromUrl browser quiet 0 arriving)) = Some alice.
Proof.
  split; [run|].
  destruct (processAuthFromUrl_accepts_iff_fresh browser quiet "tok-1"
              (JSON_stringify browser (Some alice)) "2000" (Some alice)
              2000 301999
              (with_auth browser landing "tok-1" alice 2000) arriving)
    as (H1 & _); [run | run | run | run | run | run | run | run | run |].
  destruct (processAuthFromUrl_accepts_iff_fresh browser quiet "tok-1"
              (JSON_stringify browser (Some alice)) "2000" (Some alice)
              2000 302000
              (with_auth browser landing "tok-1" alice 2000) arriving)
    as (H2 & _); [run | run | run | run | run | run | run | run | run |].
  destruct (processAuthFromUrl_accepts_iff_fresh browser quiet "tok-1"
              (JSON_stringify browser (Some alice)) "2000" (Some alice)
              2000 0
              (with_auth browser landing "tok-1" alice 2000) arriving)
    as (H3 & H4 & _); [run | run | run | run | run | run | run | run | run |].
  split; [exact H1|]. split; [exact H2|]. split; [exact H3|].
  apply H4. lia.
Defined.


Lemma processAuthFromUrl_cleans_location_witness :
  3000 - 2000 < 5 * 60 * 1000
  /\ href (fst (processAuthFromUrl browser quiet 3000 arriving))
     = "https://other.example.com/landing"
  /\ processAuthFromUrl browser quiet 3001
       (fst (processAuthFromUrl browser quiet 3000 arriving))
     = (fst (processAuthFromUrl browser quiet 3000 arriving), false).
Proof.
  split; [lia|]. split; [run|].
  destruct (processAuthFromUrl_cleans_location quiet "tok-1"
              (JSON_stringify browser (Some alice)) "2000" (Some alice)
              2000 3000
              (with_auth browser landing "tok-1" alice 2000) arriving)
    with (s1 := fst (processAuthFromUrl browser quiet 3000 arriving))
    as (_ & _ & H);
    [run | run | run | run | run | run | run | run | run | lia
    | reflexivity |].
  apply H.
Defined.

Lemma shareAuthWithApp_round_trip_witness :
  user logged_in = Some alice
  /\ expired 2000 logged_in = false
  /\ getToken logged_in = Some "tok-1"
  /\ shareAuthWithApp browser quiet "https://other.example.com" 1 2000 logged_in
     = (set_outbox
          (outbox logged_in
           ++ [TargetPost 1 "https://other.example.com" "tok-1" alice 2000])
          logged_in, Ok tt)
  /\ getUser (dispatchMessage browser quiet 3000
                (AUTH_SHARE "tok-1" (Some alice) 2000) logged_out)
     = Some alice.
Proof.
  split; [run|]. split; [run|]. split; [run|].
  destruct (shareAuthWithApp_round_trip browser quiet alice "tok-1"
              "https://other.example.com" 1 2000 3000 logged_in logged_out)
    as (H1 & H2 & _); [run | run | run | run | lia |].
  split; [exact H1|].
  destruct H2 as (H & _); [run | exact H].
Defined.

Lemma remote_login_keeps_stale_deadline_witness :
  tokenExpiryTime logged_in = Some 61000
  /\ getUser (messageListener quiet (AUTH_LOGIN (Some alice)) logged_in)
     = Some alice
  /\ snd (isLoggedIn browser quiet 70000
            (messageListener quiet (AUTH_LOGIN (Some alice)) logged_in))
     = false.
Proof.
  split; [run|].
  destruct (remote_login_keeps_stale_deadline browser quiet alice 61000 70000
              logged_in ltac:(run) ltac:(lia) ltac:(lia)
              (messageListener quiet (AUTH_LOGIN (Some alice)) logged_in)
              (or_intror eq_refl))
    as (H1 & _ & H2 & _).
  split; [exact H1 | exact H2].
Defined.

Lemma handoff_on_expired_session_logs_out_witness :
  user logged_in = Some alice
  /\ expired 70000 logged_in = true
  /\ generateAuthUrl browser quiet "https://other.example.com/landing" 70000
       logged_in
     = (logout browser quiet logged_in,
        Throw (Error "User must be logged in to generate auth URL")).
Proof.
  split; [run|]. split; [run|].
  destruct (handoff_on_expired_session_logs_out browser quiet alice 70000
              logged_in "https://other.example.com/landing"
              "https://other.example.com" 1)
    as (H & _); [run | run |].
  exact H.
Defined.

Lemma constructor_throws_on_malformed_cookie_witness :
  clean_jar (b_cookieJar malformed_browser)
  /\ decodeURIComponent browser "%" = None
  /\ constructor browser quiet one_minute malformed_browser = Throw URIError.
Proof.
  split; [clean|]. split; [run|].
  destruct (constructor_throws_on_malformed_cookie browser quiet one_minute
              malformed_browser "%") as (H & _); [clean | run |].
  apply H. reflexivity.
Defined.

Lemma constructor_corrupt_subject_posts_logout_witness :
  JSON_parse browser "{oops" = None
  /\ exists s,
       constructor browser quiet one_minute corrupt_browser = Ok s
       /\ outbox s = [WindowPost KLogout None; ChannelPost KLogout None].
Proof.
  split; [run|].
  destruct (constructor_corrupt_subject_posts_logout browser quiet one_minute
              corrupt_browser None None)
    as (s & H1 & H2 & _); [run | run | run | run | run |].
  exists s. split; [exact H1 | exact H2].
Defined.
